(** * cust_invoice_rename: a shallow embedding and its properties

    The program [cust_invoice_rename.py] reads invoice files named on the
    command line, looks in each for the line carrying the customer account
    number, and prepends the text found there to the file's name.

    The development follows the source function by function:
    - [PyStr]: the operations of Python's [str] the program uses
      ([in], [split], [replace]);
    - [PurePath]: the part of [pathlib] the program uses (POSIX flavour);
    - [Platform]: the operating-system interface ([open]/[readline],
      [os.listdir], [os.rename], [fnmatch.fnmatch]);
    - the program monad (state of the world plus Python exceptions);
    - the four functions of the script and its [__main__] block;
    - an in-memory file system, used to run the program on examples;
    - the properties. *)

From Stdlib Require Import String Ascii List Bool Arith ZArith Lia.
Import ListNotations.
Local Open Scope list_scope.
Local Open Scope string_scope.

(** ** Python strings *)

Module PyStr.

(** [sub in s] *)
Fixpoint contains (sub s : string) : bool :=
  if prefix sub s then true
  else match s with
       | EmptyString => false
       | String _ s' => contains sub s'
       end.

(** [c in s] for a single character, as a predicate on the characters. *)
Fixpoint has_char (c : ascii) (s : string) : bool :=
  match s with
  | EmptyString => false
  | String a s' => if Ascii.eqb a c then true else has_char c s'
  end.

(** [s.split(c)] for a separator of one character: never the empty list. *)
Fixpoint split (c : ascii) (s : string) : list string :=
  match s with
  | EmptyString => [EmptyString]
  | String a s' =>
      if Ascii.eqb a c then EmptyString :: split c s'
      else match split c s' with
           | x :: r => String a x :: r
           | [] => [String a EmptyString]
           end
  end.

(** [sep.join(l)] *)
Fixpoint join (sep : string) (l : list string) : string :=
  match l with
  | [] => EmptyString
  | [x] => x
  | x :: r => x ++ sep ++ join sep r
  end.

(** Drop the next [skip] characters, then go on deleting the occurrences of
    [old], left to right and without overlap. *)
Fixpoint remove_from (old : string) (skip : nat) (s : string) : string :=
  match s with
  | EmptyString => EmptyString
  | String a s' =>
      match skip with
      | S k => remove_from old k s'
      | O => if prefix old s
             then remove_from old (String.length old - 1) s'
             else String a (remove_from old 0 s')
      end
  end.

(** [s.replace(old, "")]; with [old] empty Python inserts the empty string
    between the characters, which leaves [s] as it is. *)
Definition remove_all (old s : string) : string :=
  match old with
  | EmptyString => s
  | _ => remove_from old 0 s
  end.

(** [s.lstrip(c)] *)
Fixpoint lstrip (c : ascii) (s : string) : string :=
  match s with
  | String a s' => if Ascii.eqb a c then lstrip c s' else s
  | EmptyString => EmptyString
  end.

(** [s.rfind(c)]: the index of the last [c], if any. *)
Fixpoint rfind (c : ascii) (s : string) : option nat :=
  match s with
  | EmptyString => None
  | String a s' =>
      match rfind c s' with
      | Some i => Some (S i)
      | None => if Ascii.eqb a c then Some 0 else None
      end
  end.

(** [s[:n]] and [s[n:]] *)
Fixpoint take (n : nat) (s : string) : string :=
  match n, s with
  | S k, String a s' => String a (take k s')
  | _, _ => EmptyString
  end.

Fixpoint drop (n : nat) (s : string) : string :=
  match n, s with
  | S k, String _ s' => drop k s'
  | _, _ => s
  end.

Definition is_empty (s : string) : bool :=
  match s with EmptyString => true | _ => false end.

End PyStr.

(** ** pathlib

    [Path] as the program uses it, in the POSIX flavour ([PurePosixPath]):
    a path is its root (empty, one slash or two) and its components.  The
    properties [name], [stem], [suffix], [parent] and the conversion to [str]
    are those of Python 3.10, the version current at the date of the script. *)

Module PurePath.
Import PyStr.

Record t : Type := mk { root : string; parts : list string }.

(** [_PosixFlavour.splitroot]: exactly two leading slashes are kept as a
    root of their own, any other number is one slash. *)
Definition splitroot (part : string) : string * string :=
  match part with
  | String a _ =>
      if Ascii.eqb a "/" then
        let stripped := lstrip "/" part in
        if Nat.eqb (String.length part - String.length stripped) 2
        then ("//", stripped) else ("/", stripped)
      else ("", part)
  | EmptyString => ("", part)
  end.

(** [if x and x != '.'] in [parse_parts] *)
Definition keep (x : string) : bool :=
  negb (is_empty x) && negb (String.eqb x ".").

(** [Path(s)] *)
Definition parse (s : string) : t :=
  let (r, rel) := splitroot s in
  mk r (filter keep (split "/" rel)).

(** [Path(p, s)] for a path [p] and a string [s]: [parse_parts] walks the
    arguments from the last one and stops at the first that has a root. *)
Definition joinpath (p : t) (s : string) : t :=
  let q := parse s in
  if is_empty (root q) then mk (root p) (parts p ++ parts q)%list else q.

Definition name (p : t) : string := last (parts p) "".

(** The index at which the suffix starts: a last dot that is neither the
    first nor the last character of the name. *)
Definition suffix_at (nm : string) : option nat :=
  match rfind "." nm with
  | Some i =>
      if Nat.ltb 0 i && Nat.ltb i (String.length nm - 1) then Some i else None
  | None => None
  end.

Definition suffix (p : t) : string :=
  match suffix_at (name p) with
  | Some i => drop i (name p)
  | None => ""
  end.

Definition stem (p : t) : string :=
  match suffix_at (name p) with
  | Some i => take i (name p)
  | None => name p
  end.

Definition parent (p : t) : t := mk (root p) (removelast (parts p)).

(** [str(p)] *)
Definition to_str (p : t) : string :=
  let s := root p ++ join "/" (parts p) in
  if is_empty s then "." else s.

End PurePath.

(** ** The world outside the program *)

(** What the successive calls of [readline] on an open file deliver: a line,
    or a failure (a decoding error on content that is not text, an I/O error).
    At the end of the list [readline] returns the empty string. *)
Inductive read_event : Type :=
| Line (s : string)
| ReadError.

Definition stream : Type := list read_event.

(** The operating system and library calls of the script.  [None] stands for
    the call raising [OSError]. *)
Class Platform : Type := {
  FS : Type;
  os_open : FS -> string -> option stream;
  os_listdir : FS -> string -> option (list string);
  os_rename : FS -> string -> string -> option FS;
  fnmatch : string -> string -> bool
}.

(** The calls the program makes on the file system, in the order made. *)
Inductive syscall : Type :=
| SysOpen (fn : string)
| SysReadline (fn : string)
| SysListdir (dir : string)
| SysRename (src dst : string).

(** A call that can change the file system. *)
Definition mutating (c : syscall) : bool :=
  match c with
  | SysRename _ _ => true
  | _ => false
  end.

(** The exceptions that occur. [exit(n)] raises [SystemExit]. *)
Inductive exn : Type :=
| OSError
| UnicodeDecodeError
| IndexError
| SystemExit (code : Z).

Section Program.

Context {P : Platform}.

Record World : Type := mkWorld {
  fs : FS;
  stdout : list string;
  calls : list syscall
}.

(** A computation either returns a value or raises; what it printed and what
    it did to the file system before raising stays. *)
Definition M (A : Type) : Type := World -> (exn + A) * World.

Definition ret {A} (a : A) : M A := fun w => (inr a, w).

Definition bind {A B} (m : M A) (k : A -> M B) : M B :=
  fun w => match m w with
           | (inr a, w') => k a w'
           | (inl e, w') => (inl e, w')
           end.

Definition raise {A} (e : exn) : M A := fun w => (inl e, w).

(** [try: body except: handler] with a bare [except], which catches all. *)
Definition try_except {A} (body : M A) (handler : M A) : M A :=
  fun w => match body w with
           | (inr a, w') => (inr a, w')
           | (inl _, w') => handler w'
           end.

Definition print (s : string) : M unit :=
  fun w => (inr tt, mkWorld (fs w) (stdout w ++ [s])%list (calls w)).

Definition trace (c : syscall) : M unit :=
  fun w => (inr tt, mkWorld (fs w) (stdout w) (calls w ++ [c])%list).

(** [if cond: body] *)
Definition when (cond : bool) (body : M unit) : M unit :=
  if cond then body else ret tt.

(** [exit(code)] *)
Definition exit {A} (code : Z) : M A := raise (SystemExit code).

End Program.

Declare Scope py_scope.
Delimit Scope py_scope with py.
Notation "x <- m ;; k" := (bind m (fun x => k))
  (at level 61, m at next level, right associativity) : py_scope.
Notation "m ;; k" := (bind m (fun _ => k))
  (at level 61, right associativity) : py_scope.

(** ** The script *)

Section Script.

Context {P : Platform}.
Import PyStr.
Local Open Scope py_scope.

(** The result of [argparse]: the positional arguments and the flag. *)
Record Namespace : Type := mkArgs {
  files : list string;
  verbose : bool
}.

Definition CUST_ACCT_SEARCH_STR : string := "Customer Acct Number".
Definition END_SEEK_MARKER : string := "</ReferenceNumbers>".

Definition LF : string := String (ascii_of_nat 10) EmptyString.
Definition TAB : string := String (ascii_of_nat 9) EmptyString.

(** *** The calls on the platform *)

Definition listdir (dir : string) : M (list string) :=
  trace (SysListdir dir) ;;
  fun w => match os_listdir (fs w) dir with
           | Some l => (inr l, w)
           | None => (inl OSError, w)
           end.

(** [open(fn, 'r')]: the handle is what remains to be read. *)
Definition open_r (fn : string) : M stream :=
  trace (SysOpen fn) ;;
  fun w => match os_open (fs w) fn with
           | Some h => (inr h, w)
           | None => (inl OSError, w)
           end.

(** [infile.readline()]: the line and the handle after it. *)
Definition readline (fn : string) (infile : stream) : M (string * stream) :=
  trace (SysReadline fn) ;;
  match infile with
  | [] => ret (EmptyString, [])
  | Line s :: rest => ret (s, rest)
  | ReadError :: _ => raise UnicodeDecodeError
  end.

(** [Path.rename], that is [os.rename(src, dst)]. *)
Definition rename (src dst : string) : M unit :=
  trace (SysRename src dst) ;;
  fun w => match os_rename (fs w) src dst with
           | Some fs' => (inr tt, mkWorld fs' (stdout w) (calls w))
           | None => (inl OSError, w)
           end.

(** [l[i]] *)
Definition index (l : list string) (i : nat) : M string :=
  match nth_error l i with
  | Some x => ret x
  | None => raise IndexError
  end.

(** [for x in l: body], where [continue] is the end of [body]. *)
Fixpoint for_each {A} (l : list A) (body : A -> M unit) : M unit :=
  match l with
  | [] => ret tt
  | x :: rest => body x ;; for_each rest body
  end.

(** *** [resolve_windows_path] *)

(** The loop over [os.listdir], with the list [files] built so far. *)
Fixpoint collect_matches (args : Namespace) (corrected_path pattern : string)
    (listing : list string) (acc : list string) : M (list string) :=
  match listing with
  | [] => ret acc
  | f :: rest =>
      if fnmatch f pattern then
        when (verbose args) (print ("Appending " ++ f ++ " to list to process")) ;;
        collect_matches args corrected_path pattern rest
          (acc ++ [(corrected_path ++ f)%string])%list
      else collect_matches args corrected_path pattern rest acc
  end.

Definition resolve_windows_path (args : Namespace) (path : string)
    : M (list string) :=
  let file_info := PurePath.parse path in
  let match_search_info :=
    PurePath.stem file_info ++ PurePath.suffix file_info in
  let corrected_path := remove_all match_search_info path in
  let corrected_path :=
    if String.eqb corrected_path "" then "." else corrected_path in
  when (verbose args) (print ("Seaching " ++ corrected_path)) ;;
  listing <- listdir corrected_path ;;
  collect_matches args corrected_path match_search_info listing [].

(** *** [read_cli], from the parsed arguments on *)

Definition read_cli (argv : Namespace) : M Namespace :=
  if Nat.leb (List.length (files argv)) 0 then
    print ("No files passed at command-line" ++ LF ++ "Exiting -1") ;;
    exit (-1)
  else if Nat.eqb (List.length (files argv)) 1
          && contains "*" (nth 0 (files argv) "") then
    l <- resolve_windows_path argv (nth 0 (files argv) "") ;;
    ret (mkArgs l (verbose argv))
  else ret argv.

(** *** [file_load_and_search] *)

(** [data.split(">")[1].split("<")[0]] *)
Definition extract (data : string) : M string :=
  x <- index (split ">" data) 1 ;;
  index (split "<" x) 0.

(** The [while data:] loop, entered with the line just read and the handle
    after it; its value is that of [cust_name] when the loop is left. *)
Fixpoint scan (args : Namespace) (fn : string) (data : string)
    (infile : stream) {struct infile} : M string :=
  if is_empty data then ret ""
  else
    stop <- (if contains END_SEEK_MARKER data then
               if verbose args then
                 print ("reached " ++ END_SEEK_MARKER
                        ++ " without finding customer name") ;;
                 ret true
               else ret false
             else ret false) ;;
    if (stop : bool) then ret ""
    else if contains CUST_ACCT_SEARCH_STR data then extract data
    else
      (* data = infile.readline() *)
      trace (SysReadline fn) ;;
      match infile with
      | [] => ret ""
      | Line s :: rest => scan args fn s rest
      | ReadError :: _ => raise UnicodeDecodeError
      end.

(** The body of the [try]. *)
Definition scan_file (args : Namespace) (fn : string) : M string :=
  infile <- open_r fn ;;
  r <- readline fn infile ;;
  scan args fn (fst r) (snd r).

Definition file_load_and_search (args : Namespace) (fn : string) : M string :=
  cust_name <-
    try_except (scan_file args fn)
      (when (verbose args) (print ("bad filename " ++ fn ++ ", skipping")) ;;
       ret "") ;;
  when (verbose args) (print ("Customer Name Found: " ++ cust_name)) ;;
  ret cust_name.

(** *** [file_rename] *)

(** The basename the file is given. *)
Definition new_name (fn name : string) : string :=
  let f_info := PurePath.parse fn in
  name ++ "_" ++ PurePath.stem f_info ++ PurePath.suffix f_info.

(** The path the file is renamed to. *)
Definition new_path (fn name : string) : PurePath.t :=
  let f_info := PurePath.parse fn in
  PurePath.joinpath (PurePath.parent f_info) (new_name fn name).

Definition file_rename (args : Namespace) (fn name : string) : M unit :=
  if contains name fn then
    when (verbose args)
      (print ("Customer name already in filename, skipping " ++ fn))
  else
    rename (PurePath.to_str (PurePath.parse fn))
           (PurePath.to_str (new_path fn name)) ;;
    when (verbose args) (print ("new file name = " ++ new_name fn name)).

(** *** [__main__] *)

(** The body of the loop over the file names, for a given renamer. *)
Definition process_with (renamer : Namespace -> string -> string -> M unit)
    (args : Namespace) (fn : string) : M unit :=
  cust_name <- file_load_and_search args fn ;;
  if String.eqb cust_name "" then
    when (verbose args)
      (print ("No customer information read from file " ++ fn))
  else renamer args fn cust_name.

Definition process : Namespace -> string -> M unit :=
  process_with file_rename.

(** "print out files to be renamed" *)
Definition announce (args : Namespace) : M unit :=
  when (verbose args)
    (print (LF ++ "Files to be parsed:") ;;
     for_each (files args) (fun f => print (TAB ++ f))).

(** The block from the listing of the files to [exit(0)]. *)
Definition run_with (renamer : Namespace -> string -> string -> M unit)
    (args : Namespace) : M unit :=
  announce args ;;
  for_each (files args) (process_with renamer args) ;;
  when (verbose args) (print "Completed, Exiting") ;;
  exit 0.

Definition main_with (renamer : Namespace -> string -> string -> M unit)
    (argv : Namespace) : M unit :=
  args <- read_cli argv ;;
  run_with renamer args.

Definition main : Namespace -> M unit := main_with file_rename.

(** The status the process ends with: that of [exit], or 1 when an exception
    reaches the top. *)
Definition exit_status {A} (r : exn + A) : Z :=
  match r with
  | inl (SystemExit code) => code mod 256
  | inl _ => 1
  | inr _ => 0
  end.

End Script.

(** ** An in-memory platform

    Files are kept under their normalised path, directories are listed by
    name, and [replace_existing] chooses what [os.rename] does when the
    destination is an existing file: replace it (POSIX) or raise (Windows). *)

Module Fnmatch.

(** [fnmatch.fnmatchcase] for patterns made of literal characters, [*] and
    [?]. *)
Fixpoint glob (pat s : string) : bool :=
  match pat with
  | EmptyString => PyStr.is_empty s
  | String "*"%char pat' =>
      (fix star (s : string) : bool :=
         if glob pat' s then true
         else match s with
              | EmptyString => false
              | String _ s' => star s'
              end) s
  | String "?"%char pat' =>
      match s with
      | EmptyString => false
      | String _ s' => glob pat' s'
      end
  | String c pat' =>
      match s with
      | EmptyString => false
      | String d s' => Ascii.eqb c d && glob pat' s'
      end
  end.

End Fnmatch.

Module MemFS.

Record t : Type := mk {
  entries : list (string * stream);
  dirs : list string;
  replace_existing : bool
}.

Definition norm (p : string) : string := PurePath.to_str (PurePath.parse p).

Definition dirname (p : string) : string :=
  PurePath.to_str (PurePath.parent (PurePath.parse p)).

Definition basename (p : string) : string := PurePath.name (PurePath.parse p).

Fixpoint lookup (k : string) (l : list (string * stream)) : option stream :=
  match l with
  | [] => None
  | (k', v) :: r => if String.eqb k k' then Some v else lookup k r
  end.

Definition mem (k : string) (l : list string) : bool :=
  existsb (String.eqb k) l.

Definition delete (k : string) (l : list (string * stream))
    : list (string * stream) :=
  filter (fun e => negb (String.eqb k (fst e))) l.

(** Give the entry under [k] the key [k']; it stays where it is in the
    directory order. *)
Definition rekey (k k' : string) (l : list (string * stream))
    : list (string * stream) :=
  map (fun e => if String.eqb k (fst e) then (k', snd e) else e) l.

Definition open (m : t) (fn : string) : option stream :=
  lookup (norm fn) (entries m).

Definition listdir (m : t) (dir : string) : option (list string) :=
  let d := norm dir in
  if mem d (dirs m) then
    Some (map basename
            (filter (fun p => String.eqb (dirname p) d && negb (String.eqb p d))
                    (map fst (entries m) ++ dirs m)%list))
  else None.

Definition rename (m : t) (src dst : string) : option t :=
  let s := norm src in
  let d := norm dst in
  match lookup s (entries m) with
  | None => None
  | Some _ =>
      if negb (mem (dirname d) (dirs m)) then None
      else if mem d (dirs m) then None
      else if String.eqb s d then Some m
      else match lookup d (entries m) with
           | Some _ =>
               if replace_existing m
               then Some (mk (rekey s d (delete d (entries m))) (dirs m)
                             (replace_existing m))
               else None
           | None =>
               Some (mk (rekey s d (entries m)) (dirs m) (replace_existing m))
           end
  end.

#[export] Instance platform : Platform := {
  FS := t;
  os_open := open;
  os_listdir := listdir;
  os_rename := rename;
  fnmatch := fun name pat => Fnmatch.glob pat name
}.

(** The world a run starts in. *)
Definition boot (m : t) : World := mkWorld (m : @FS platform) [] [].

(** A text file, line by line. *)
Definition text (lines : list string) : stream := map Line lines.

End MemFS.

(** ** Notions used in the statements *)

Section Notions.

Context {P : Platform}.

(** The world after one more call on the file system was logged. *)
Definition logged (c : syscall) (w : World) : World :=
  mkWorld (fs w) (stdout w) (calls w ++ [c])%list.

(** The world after one more line was printed. *)
Definition printed (s : string) (w : World) : World :=
  mkWorld (fs w) (stdout w ++ [s])%list (calls w).

(** From [w] to [w'] the file system was left alone: it is the same, and no
    call made in between could have changed it. *)
Definition untouched (w w' : World) : Prop :=
  fs w' = fs w /\
  exists cs, calls w' = (calls w ++ cs)%list /\
             forallb (fun c => negb (mutating c)) cs = true.

(** [m'] is reached from [m] by renames that succeeded, each of a file that
    could be opened under the name the program was given for it. *)
Inductive renames_only : FS -> FS -> Prop :=
| renames_none (m : FS) : renames_only m m
| renames_step (m m1 m' : FS) (fn dst : string) :
    os_open m fn <> None ->
    os_rename m (PurePath.to_str (PurePath.parse fn)) dst = Some m1 ->
    renames_only m1 m' ->
    renames_only m m'.

(** A line the loop of the scanner passes over: it is not empty, has no
    search marker, and its stop marker, if any, goes unheeded. *)
Definition passes (args : Namespace) (data : string) : bool :=
  negb (PyStr.is_empty data)
  && negb (PyStr.contains CUST_ACCT_SEARCH_STR data)
  && negb (PyStr.contains END_SEEK_MARKER data && verbose args).

(** Where the token ends: at the end of the line, or before a [<] or [>]. *)
Definition token_end (rest : string) : bool :=
  match rest with
  | EmptyString => true
  | String c _ => Ascii.eqb c "<" || Ascii.eqb c ">"
  end.

(** A renamer that refuses the empty token and otherwise is [renamer]. *)
Definition guarded (renamer : Namespace -> string -> string -> M unit)
    (args : Namespace) (fn name : string) : M unit :=
  if String.eqb name "" then raise IndexError else renamer args fn name.

End Notions.

(** The extraction as the specification words it: "the substring strictly
    between the first [>] and the next [<]". *)
Module Spec.

Fixpoint after_first (c : ascii) (s : string) : option string :=
  match s with
  | EmptyString => None
  | String a s' => if Ascii.eqb a c then Some s' else after_first c s'
  end.

Fixpoint before_first (c : ascii) (s : string) : option string :=
  match s with
  | EmptyString => None
  | String a s' =>
      if Ascii.eqb a c then Some EmptyString
      else option_map (String a) (before_first c s')
  end.

Definition between_tags (line : string) : option string :=
  match after_first ">" line with
  | Some r => before_first "<" r
  | None => None
  end.

End Spec.

(** ** Example file systems *)

Module Examples.
Import MemFS.

(** An invoice whose account line comes inside the reference numbers. *)
Definition invoice (token : string) : stream :=
  text ["<Invoice>" ++ LF;
        "<ReferenceNumbers>" ++ LF;
        "<Reference Customer Acct Number>" ++ token ++ "</Reference>" ++ LF;
        "</ReferenceNumbers>" ++ LF;
        "</Invoice>" ++ LF].

(** An invoice whose reference numbers end before the account line. *)
Definition late_invoice (token : string) : stream :=
  text ["<Invoice>" ++ LF;
        "</ReferenceNumbers>" ++ LF;
        "<Reference Customer Acct Number>" ++ token ++ "</Reference>" ++ LF].

(** An invoice with both markers on one line. *)
Definition one_line_invoice (token : string) : stream :=
  text ["<Value>" ++ token
        ++ "</Value> Customer Acct Number </ReferenceNumbers>" ++ LF].

(** An account line without a closing angle bracket. *)
Definition broken_invoice : stream :=
  text ["<Invoice>" ++ LF; "Customer Acct Number: ACME" ++ LF].

(** Content that stops being text after the first line. *)
Definition binary_file : stream := [Line ("<Invoice>" ++ LF); ReadError].

(** One directory [d] with invoices in it. *)
Definition posix_dir : MemFS.t :=
  mk [("d/a.xml", invoice "ACME"); ("d/b.xml", invoice "BOLT")] ["."; "d"] true.

(** Invoices whose reference numbers end before the account line. *)
Definition late_dir : MemFS.t :=
  mk [("inv.xml", late_invoice "ACME"); ("one.xml", one_line_invoice "BOLT")]
     ["."] true.

(** A directory that bears the name of the customer. *)
Definition token_dir : MemFS.t :=
  mk [("ACME/inv.xml", invoice "ACME")] ["."; "ACME"] true.

(** The name the first invoice is to get is that of a directory. *)
Definition blocked_dir : MemFS.t :=
  mk [("d/a.xml", invoice "ACME"); ("d/b.xml", invoice "BOLT")]
     ["."; "d"; "d/ACME_a.xml"] true.

(** The name the invoice is to get is that of another file. *)
Definition crowded_dir : MemFS.t :=
  mk [("d/a.xml", invoice "ACME"); ("d/ACME_a.xml", invoice "BOLT")]
     ["."; "d"] true.

(** The working directory with an invoice in it. *)
Definition cwd_dir : MemFS.t :=
  mk [("a.xml", invoice "ACME"); ("notes.txt", text ["to do" ++ LF])]
     ["."] true.

(** An account line with a second [>] before the closing tag. *)
Definition nested_line : string :=
  "<Reference Customer Acct Number>A>B</Reference>" ++ LF.

Definition odd_dir : MemFS.t :=
  mk [("d/odd.xml", text ["<Invoice>" ++ LF; nested_line]);
      ("d/bad.xml", broken_invoice); ("d/bin.xml", binary_file)]
     ["."; "d"] true.

Definition quiet : list string -> Namespace := fun l => mkArgs l false.
Definition chatty : list string -> Namespace := fun l => mkArgs l true.

(** Two invoices named on the command line, with tracing. *)
Definition batch : Namespace := chatty ["d/a.xml"; "d/b.xml"].

(** The lines of [invoice] before the account line, and those after it. *)
Definition invoice_head : list string :=
  ["<Invoice>" ++ LF; "<ReferenceNumbers>" ++ LF].

Definition invoice_tail : stream :=
  text ["</ReferenceNumbers>" ++ LF; "</Invoice>" ++ LF].

End Examples.

(** ** More notions, for the rest of the script *)

Section ResolverNotions.

Import PyStr.

(** The local [match_search_info] of [resolve_windows_path]: the pattern the
    children are matched against. *)
Definition match_search_info (path : string) : string :=
  PurePath.stem (PurePath.parse path) ++ PurePath.suffix (PurePath.parse path).

(** The local [corrected_path] of [resolve_windows_path], after the test for
    the empty string: the directory that is listed. *)
Definition corrected_path (path : string) : string :=
  let c := remove_all (match_search_info path) path in
  if String.eqb c "" then "." else c.

(** [data.split(">")[1].split("<")[0]] as a value, the empty string standing
    for the failure of the indexing. *)
Definition token_of (data : string) : string :=
  match nth_error (split ">" data) 1 with
  | Some x => hd "" (split "<" x)
  | None => ""
  end.

(** The calls of a log that are renames, as pairs of source and target. *)
Fixpoint renames_in (cs : list syscall) : list (string * string) :=
  match cs with
  | [] => []
  | SysRename src dst :: r => (src, dst) :: renames_in r
  | _ :: r => renames_in r
  end.

(** No line of the stream holds the stop marker. *)
Definition no_stop_marker (h : stream) : bool :=
  forallb (fun e => match e with
                    | Line s => negb (contains END_SEEK_MARKER s)
                    | ReadError => true
                    end) h.

End ResolverNotions.

Module MoreExamples.
Import MemFS.

(** A file of the directory that is no invoice. *)
Definition memo : list string :=
  ["<Memo>" ++ LF; "<Total>12</Total>" ++ LF; "</Memo>" ++ LF].

Definition office_dir : MemFS.t :=
  mk [("d/a.xml", Examples.invoice "ACME"); ("d/memo.xml", text memo);
      ("d/ACME_old.xml", Examples.invoice "ACME")]
     ["."; "d"] true.

(** A file in the root directory, and an invoice in a directory below the
    working directory. *)
Definition rooted_dir : MemFS.t :=
  mk [("/boot.xml", Examples.invoice "ACME");
      ("work/a.xml", Examples.invoice "BOLT")]
     ["/"; "."; "work"] true.

End MoreExamples.

(** * Properties *)

(** ** Strings *)

Module PyStrFacts.
Import PyStr.

Lemma append_nil_r (s : string) : s ++ "" = s.
Proof. induction s as [|a s IH]; simpl; [reflexivity | now rewrite IH]. Qed.

Lemma append_assoc (a b c : string) : (a ++ b) ++ c = a ++ b ++ c.
Proof. induction a as [|x a IH]; simpl; [reflexivity | now rewrite IH]. Qed.

Lemma length_append (a b : string) :
  String.length (a ++ b) = String.length a + String.length b.
Proof. induction a as [|x a IH]; simpl; [reflexivity | now rewrite IH]. Qed.

Lemma is_empty_true (s : string) : is_empty s = true <-> s = "".
Proof. destruct s; simpl; split; congruence. Qed.

Lemma is_empty_false (s : string) : is_empty s = false <-> s <> "".
Proof. destruct s; simpl; split; congruence. Qed.

(** *** [in] *)

Lemma prefix_nil (s : string) : prefix "" s = true.
Proof. now destruct s. Qed.

Lemma prefix_append (a b : string) : prefix a (a ++ b) = true.
Proof.
  induction a as [|x a IH]; simpl.
  - apply prefix_nil.
  - destruct (ascii_dec x x); [exact IH | congruence].
Qed.

Lemma prefix_inv (a s : string) :
  prefix a s = true -> exists b, s = a ++ b.
Proof.
  revert s; induction a as [|x a IH]; intros s H.
  - now exists s.
  - destruct s as [|y s]; simpl in H; [discriminate|].
    destruct (ascii_dec x y) as [->|]; [|discriminate].
    destruct (IH _ H) as [b ->]. now exists b.
Qed.

Lemma contains_nil (s : string) : contains "" s = true.
Proof. destruct s; reflexivity. Qed.

Lemma contains_prefix (sub s : string) :
  prefix sub s = true -> contains sub s = true.
Proof. intros H. destruct s; cbn [contains]; now rewrite H. Qed.

Lemma contains_intro (a sub b : string) : contains sub (a ++ sub ++ b) = true.
Proof.
  induction a as [|x a IH].
  - simpl. apply contains_prefix, prefix_append.
  - cbn [append contains]. rewrite IH. now destruct (prefix sub _).
Qed.

Lemma contains_inv (sub s : string) :
  contains sub s = true -> exists a b, s = a ++ sub ++ b.
Proof.
  induction s as [|x s IH]; cbn [contains]; intros H.
  - destruct (prefix sub "") eqn:E; [|discriminate].
    destruct (prefix_inv _ _ E) as [b Hb]. now exists "", b.
  - destruct (prefix sub (String x s)) eqn:E.
    + destruct (prefix_inv _ _ E) as [b Hb]. now exists "", b.
    + destruct (IH H) as (a & b & ->). now exists (String x a), b.
Qed.

(** [in] is exactly "occurs as a contiguous piece". *)
Lemma contains_iff (sub s : string) :
  contains sub s = true <-> exists a b, s = a ++ sub ++ b.
Proof.
  split; [apply contains_inv|]. intros (a & b & ->). apply contains_intro.
Qed.

Lemma contains_within (t n a b : string) :
  contains t n = true -> contains t (a ++ n ++ b) = true.
Proof.
  intros H. destruct (contains_inv _ _ H) as (u & v & ->).
  replace (a ++ (u ++ t ++ v) ++ b) with ((a ++ u) ++ t ++ (v ++ b)).
  - apply contains_intro.
  - now rewrite !append_assoc.
Qed.

Lemma has_char_append (c : ascii) (a b : string) :
  has_char c (a ++ b) = has_char c a || has_char c b.
Proof.
  induction a as [|x a IH]; simpl; [reflexivity|].
  now destruct (Ascii.eqb x c).
Qed.

(** *** [split] *)

Lemma split_not_nil (c : ascii) (s : string) : split c s <> [].
Proof.
  induction s as [|a s IH]; simpl; [discriminate|].
  destruct (Ascii.eqb a c); [discriminate|].
  destruct (split c s); [contradiction | discriminate].
Qed.

(** A string without the separator is one piece. *)
Lemma split_none (c : ascii) (s : string) :
  has_char c s = false -> split c s = [s].
Proof.
  induction s as [|a s IH]; simpl; [reflexivity|].
  destruct (Ascii.eqb a c); [discriminate|].
  intros H. now rewrite (IH H).
Qed.

(** The first piece ends at the first separator. *)
Lemma split_first (c : ascii) (a rest : string) :
  has_char c a = false ->
  split c (a ++ String c rest) = a :: split c rest.
Proof.
  induction a as [|x a IH]; simpl.
  - now rewrite Ascii.eqb_refl.
  - destruct (Ascii.eqb x c); [discriminate|].
    intros H. now rewrite (IH H).
Qed.

(** Text without the separator put in front joins the first piece. *)
Lemma split_prepend (c : ascii) (u s : string) :
  has_char c u = false ->
  split c (u ++ s) = (u ++ hd "" (split c s)) :: tl (split c s).
Proof.
  induction u as [|x u IH]; simpl.
  - intros _. destruct (split c s) eqn:E; [|reflexivity].
    exfalso. now apply (split_not_nil c s).
  - destruct (Ascii.eqb x c); [discriminate|].
    intros H. now rewrite (IH H).
Qed.

(** No piece holds the separator. *)
Lemma split_pieces (c : ascii) (s x : string) :
  In x (split c s) -> has_char c x = false.
Proof.
  revert x; induction s as [|a s IH]; simpl; intros x H.
  - destruct H as [<-|[]]. reflexivity.
  - destruct (Ascii.eqb a c) eqn:E.
    + destruct H as [<-|H]; [reflexivity | now apply IH].
    + destruct (split c s) as [|y r] eqn:Es.
      * destruct H as [<-|[]]. simpl. now rewrite E.
      * destruct H as [<-|H].
        -- simpl. rewrite E. apply IH. now left.
        -- apply IH. now right.
Qed.

(** The first piece starts the string. *)
Lemma split_head (c : ascii) (s y : string) (r : list string) :
  split c s = y :: r -> exists v, s = y ++ v.
Proof.
  revert y r; induction s as [|b s IH]; simpl; intros y r E.
  - injection E as <- <-. now exists "".
  - destruct (Ascii.eqb b c).
    + injection E as <- <-. now exists (String b s).
    + destruct (split c s) as [|z q] eqn:Ez.
      * exfalso. now apply (split_not_nil c s).
      * injection E as <- <-.
        destruct (IH z q eq_refl) as [v ->]. now exists v.
Qed.

(** Every piece is a piece of the string. *)
Lemma split_within (c : ascii) (s x : string) :
  In x (split c s) -> exists a b, s = a ++ x ++ b.
Proof.
  revert x; induction s as [|a s IH]; simpl; intros x H.
  - destruct H as [<-|[]]. now exists "", "".
  - destruct (Ascii.eqb a c) eqn:E.
    + destruct H as [<-|H].
      * now exists "", (String a s).
      * destruct (IH _ H) as (u & v & ->). now exists (String a u), v.
    + destruct (split c s) as [|y r] eqn:Es.
      * exfalso. now apply (split_not_nil c s).
      * destruct H as [<-|H].
        -- destruct (split_head _ _ _ _ Es) as [v ->]. now exists "", v.
        -- destruct (IH x (or_intror H)) as (u & v & ->).
           now exists (String a u), v.
Qed.

(** *** Slices and [rfind] *)

Lemma take_drop (n : nat) (s : string) : take n s ++ drop n s = s.
Proof.
  revert s; induction n as [|n IH]; intros [|a s]; simpl; try reflexivity.
  now rewrite IH.
Qed.

Lemma take_append (a b : string) (i : nat) :
  take (String.length a + i) (a ++ b) = a ++ take i b.
Proof. induction a as [|x a IH]; simpl; [reflexivity | now rewrite IH]. Qed.

Lemma drop_append (a b : string) (i : nat) :
  drop (String.length a + i) (a ++ b) = drop i b.
Proof. induction a as [|x a IH]; simpl; [reflexivity | exact IH]. Qed.

Lemma rfind_append (c : ascii) (a b : string) (i : nat) :
  rfind c b = Some i -> rfind c (a ++ b) = Some (String.length a + i).
Proof.
  intros H. induction a as [|x a IH]; simpl; [exact H | now rewrite IH].
Qed.

Lemma lstrip_none (c : ascii) (s : string) :
  has_char c s = false -> lstrip c s = s.
Proof.
  destruct s as [|a s]; simpl; [reflexivity|].
  now destruct (Ascii.eqb a c).
Qed.

(** Two ways to cut one string: one of the two first parts starts the
    other. *)
Lemma append_cut (a b c d : string) :
  a ++ b = c ++ d -> (exists e, c = a ++ e) \/ (exists e, a = c ++ e).
Proof.
  revert c; induction a as [|x a IH]; intros c H.
  - left. now exists c.
  - destruct c as [|y c].
    + right. now exists (String x a).
    + simpl in H. injection H as -> H.
      destruct (IH _ H) as [[e ->]|[e ->]]; [left | right]; now exists e.
Qed.

Lemma split_append (c : ascii) (u v : string) :
  split c (u ++ String c v) = (split c u ++ split c v)%list.
Proof.
  induction u as [|x u IH]; simpl.
  - now rewrite Ascii.eqb_refl.
  - destruct (Ascii.eqb x c); [now rewrite IH|].
    rewrite IH. destruct (split c u) eqn:E; [|reflexivity].
    exfalso. now apply (split_not_nil c u).
Qed.

(** *** [replace] *)

Lemma remove_from_skip (old s : string) :
  remove_from old (String.length s) s = "".
Proof. induction s as [|a s IH]; simpl; [reflexivity | exact IH]. Qed.

Lemma prefix_refl (s : string) : prefix s s = true.
Proof.
  pose proof (prefix_append s "") as H. now rewrite append_nil_r in H.
Qed.

(** Deleting a string from itself leaves nothing. *)
Lemma remove_all_self (s : string) : remove_all s s = "".
Proof.
  destruct s as [|a s]; [reflexivity|].
  unfold remove_all. cbn [remove_from].
  rewrite prefix_refl.
  replace (String.length (String a s) - 1) with (String.length s)
    by (simpl; lia).
  apply remove_from_skip.
Qed.

(** Where [old] starts at no place of [u ++ old] before its end, deleting
    it leaves [u]. *)
Lemma remove_from_last (old : string) :
  old <> "" ->
  forall u : string,
    (forall u1 u2, u = u1 ++ u2 -> u2 <> "" -> prefix old (u2 ++ old) = false) ->
    remove_from old 0 (u ++ old) = u.
Proof.
  intros Ho. induction u as [|a u IH]; intros H.
  - pose proof (remove_all_self old) as R. unfold remove_all in R.
    destruct old; [contradiction | exact R].
  - cbn [append remove_from].
    assert (E : prefix old (String a (u ++ old)) = false)
      by (apply (H "" (String a u)); [reflexivity | discriminate]).
    rewrite E. f_equal. apply IH. intros u1 u2 -> Hu.
    now apply (H (String a u1) u2).
Qed.

(** A path ending in a separator, then a name without separator that does
    not occur in the path: deleting the name leaves the path. *)
Lemma remove_all_last (c : ascii) (d pat : string) :
  pat <> "" ->
  has_char c pat = false ->
  contains pat (d ++ String c "") = false ->
  remove_all pat (d ++ String c "" ++ pat) = d ++ String c "".
Proof.
  intros Hp Hc Hn.
  assert (R : remove_all pat (d ++ String c "" ++ pat)
              = remove_from pat 0 (d ++ String c "" ++ pat))
    by (destruct pat; [contradiction | reflexivity]).
  rewrite R, <- append_assoc. apply remove_from_last; [exact Hp|].
  intros u1 u2 Hu Hu2.
  destruct (prefix pat (u2 ++ pat)) eqn:E; [|reflexivity]. exfalso.
  apply prefix_inv in E as [b E].
  (* [u2] ends with the separator *)
  assert (L : exists u3, u2 = u3 ++ String c "").
  { clear - Hu Hu2. revert d u2 Hu Hu2. induction u1 as [|x u1 IH];
      intros d u2 Hu Hu2.
    - exists d. simpl in Hu. now symmetry.
    - destruct d as [|y d]; simpl in Hu.
      + injection Hu as _ Hu. destruct u1; simpl in Hu;
          [now subst u2 | discriminate].
      + injection Hu as _ Hu. now apply (IH d). }
  destruct L as [u3 ->].
  destruct (append_cut _ _ _ _ E) as [[e He]|[e He]].
  - (* the name starts with [u2]: it has the separator in it *)
    rewrite He, !has_char_append in Hc. simpl in Hc.
    rewrite Ascii.eqb_refl, orb_true_r in Hc. discriminate.
  - (* [u2] starts with the name: the name occurs in the path *)
    rewrite Hu, He in Hn.
    rewrite (contains_intro u1 pat e) in Hn. discriminate.
Qed.

End PyStrFacts.

(** ** Paths *)

Module PurePathFacts.
Import PyStr PyStrFacts PurePath.

(** The name is the stem followed by the suffix. *)
Lemma stem_suffix (p : t) : stem p ++ suffix p = name p.
Proof.
  unfold stem, suffix. destruct (suffix_at (name p)).
  - apply take_drop.
  - apply append_nil_r.
Qed.

Lemma lstrip_within (c : ascii) (s : string) : exists a, s = a ++ lstrip c s.
Proof.
  induction s as [|x s [a IH]]; simpl.
  - now exists "".
  - destruct (Ascii.eqb x c).
    + exists (String x a). simpl. now rewrite <- IH.
    + now exists "".
Qed.

Lemma splitroot_within (s : string) : exists a, s = a ++ snd (splitroot s).
Proof.
  unfold splitroot. destruct s as [|x s]; [now exists ""|].
  destruct (Ascii.eqb x "/"); [|now exists ""].
  destruct (Nat.eqb _ 2); cbn [snd]; apply lstrip_within.
Qed.

Lemma parts_parse (s : string) :
  parts (parse s) = filter keep (split "/" (snd (splitroot s))).
Proof. unfold parse. now destruct (splitroot s). Qed.

Lemma root_parse (s : string) : root (parse s) = fst (splitroot s).
Proof. unfold parse. now destruct (splitroot s). Qed.

(** A component has no separator in it, is not empty and is not a dot. *)
Lemma parts_clean (fn x : string) :
  In x (parts (parse fn)) -> has_char "/" x = false /\ keep x = true.
Proof.
  rewrite parts_parse. intros H. apply filter_In in H as [H K].
  split; [exact (split_pieces _ _ _ H) | exact K].
Qed.

(** A component is a piece of the path string. *)
Lemma parts_within (fn x : string) :
  In x (parts (parse fn)) -> exists a b, fn = a ++ x ++ b.
Proof.
  rewrite parts_parse. intros H. apply filter_In in H as [H _].
  destruct (split_within _ _ _ H) as (u & v & E).
  destruct (splitroot_within fn) as [r Hr].
  exists (r ++ u), v. rewrite Hr at 1. rewrite E. now rewrite append_assoc.
Qed.

Lemma last_In {A} (l : list A) (d : A) : l <> [] -> In (last l d) l.
Proof.
  induction l as [|x [|y l] IH]; intros H; [contradiction | now left |].
  right. apply IH. discriminate.
Qed.

(** The basename is a piece of the path string. *)
Lemma name_within (fn : string) : exists a b, fn = a ++ name (parse fn) ++ b.
Proof.
  unfold name. destruct (parts (parse fn)) as [|x l] eqn:E.
  - now exists "", fn.
  - apply parts_within. rewrite E. apply last_In. discriminate.
Qed.

Lemma name_clean (fn : string) : has_char "/" (name (parse fn)) = false.
Proof.
  unfold name. destruct (parts (parse fn)) as [|x l] eqn:E; [reflexivity|].
  apply (parts_clean fn). rewrite E. apply last_In. discriminate.
Qed.

(** What occurs in the basename occurs in the path. *)
Lemma contains_name (fn sub : string) :
  contains sub (name (parse fn)) = true -> contains sub fn = true.
Proof.
  intros H. destruct (name_within fn) as (a & b & E).
  rewrite E. now apply contains_within.
Qed.

(** A string that is one component parses to that component. *)
Lemma parse_component (x : string) :
  has_char "/" x = false -> keep x = true -> parse x = mk "" [x].
Proof.
  intros H K. unfold parse, splitroot.
  destruct x as [|a x]; [discriminate K|].
  assert (E : Ascii.eqb a "/" = false).
  { simpl in H. now destruct (Ascii.eqb a "/"). }
  rewrite E, (split_none _ _ H). simpl filter. now rewrite K.
Qed.

Lemma snd_splitroot (s : string) : snd (splitroot s) = lstrip "/" s.
Proof.
  unfold splitroot. destruct s as [|a s]; [reflexivity|].
  destruct (Ascii.eqb a "/") eqn:E.
  - now destruct (Nat.eqb _ 2).
  - simpl. now rewrite E.
Qed.

Lemma lstrip_path (d pat : string) :
  has_char "/" pat = false ->
  lstrip "/" (d ++ String "/" pat) = pat
  \/ exists r, lstrip "/" (d ++ String "/" pat) = r ++ String "/" pat.
Proof.
  intros H. induction d as [|a d IH]; simpl.
  - left. now apply lstrip_none.
  - destruct (Ascii.eqb a "/"); [exact IH|]. right. now exists (String a d).
Qed.

(** The basename of a path that ends in a separator and a component. *)
Lemma name_of_path (d pat : string) :
  has_char "/" pat = false -> keep pat = true ->
  name (parse (d ++ String "/" pat)) = pat.
Proof.
  intros H K. unfold name. rewrite parts_parse, snd_splitroot.
  destruct (lstrip_path d pat H) as [E|[r E]]; rewrite E.
  - rewrite (split_none _ _ H). simpl filter. now rewrite K.
  - rewrite split_append, filter_app, (split_none _ _ H). simpl filter.
    rewrite K. apply last_last.
Qed.

Lemma suffix_at_append (pre nm : string) (i : nat) :
  suffix_at nm = Some i ->
  suffix_at (pre ++ nm) = Some (String.length pre + i).
Proof.
  unfold suffix_at. destruct (rfind "." nm) as [j|] eqn:E; [|discriminate].
  destruct (Nat.ltb 0 j && Nat.ltb j (String.length nm - 1)) eqn:B;
    [|discriminate].
  intros H. injection H as <-. rewrite (rfind_append _ pre _ _ E).
  apply andb_prop in B as [B1 B2].
  apply Nat.ltb_lt in B1, B2.
  assert (C1 : Nat.ltb 0 (String.length pre + j) = true)
    by (apply Nat.ltb_lt; lia).
  assert (C2 : Nat.ltb (String.length pre + j)
                       (String.length (pre ++ nm) - 1) = true)
    by (apply Nat.ltb_lt; rewrite length_append; lia).
  now rewrite C1, C2.
Qed.

End PurePathFacts.

(** ** The program monad and the scanner *)

Section ScannerFacts.

Context {P : Platform}.
Import PyStr PyStrFacts.

Lemma untouched_refl (w : World) : untouched w w.
Proof. split; [reflexivity|]. exists []. now rewrite app_nil_r. Qed.

Lemma untouched_trans (w1 w2 w3 : World) :
  untouched w1 w2 -> untouched w2 w3 -> untouched w1 w3.
Proof.
  intros [F1 (c1 & C1 & N1)] [F2 (c2 & C2 & N2)]. split; [congruence|].
  exists (c1 ++ c2)%list. split.
  - now rewrite C2, C1, app_assoc.
  - now rewrite forallb_app, N1, N2.
Qed.

Lemma untouched_printed (s : string) (w : World) : untouched w (printed s w).
Proof. split; [reflexivity|]. exists []. simpl. now rewrite app_nil_r. Qed.

Lemma untouched_logged (c : syscall) (w : World) :
  mutating c = false -> untouched w (logged c w).
Proof.
  intros H. split; [reflexivity|]. exists [c]. simpl. now rewrite H.
Qed.

Lemma untouched_when_print (b : bool) (s : string) (w : World) :
  fst (when b (print s) w) = inr tt /\ untouched w (snd (when b (print s) w)).
Proof.
  destruct b; simpl; split; try reflexivity.
  - apply untouched_printed.
  - apply untouched_refl.
Qed.

(** The extraction fails exactly by indexing past the pieces, and it leaves
    the world as it is. *)
Lemma extract_world (data : string) (w : World) : snd (extract data w) = w.
Proof.
  unfold extract, bind, index.
  destruct (nth_error (split ">" data) 1); simpl; [|reflexivity].
  now destruct (split "<" s).
Qed.

Lemma extract_no_gt (data : string) (w : World) :
  has_char ">" data = false -> extract data w = (inl IndexError, w).
Proof.
  intros H. unfold extract, bind, index. now rewrite (split_none _ _ H).
Qed.

(** One turn of the loop on a line that is passed over. *)
Lemma scan_pass (args : Namespace) (fn data s : string) (rest : stream)
    (w : World) :
  passes args data = true ->
  scan args fn data (Line s :: rest) w
  = scan args fn s rest (logged (SysReadline fn) w).
Proof.
  unfold passes. intros H.
  apply andb_prop in H as [H H3]. apply andb_prop in H as [H1 H2].
  apply negb_true_iff in H1, H2, H3.
  cbn [scan]. rewrite H1. unfold bind at 1.
  destruct (contains END_SEEK_MARKER data); simpl in H3.
  - rewrite H3. unfold ret at 1. rewrite H2. reflexivity.
  - unfold ret at 1. rewrite H2. reflexivity.
Qed.

(** On a line with the search marker whose stop marker, if any, goes
    unheeded, the loop ends with the extraction. *)
Lemma scan_at_marker (args : Namespace) (fn data : string) (infile : stream)
    (w : World) :
  contains CUST_ACCT_SEARCH_STR data = true ->
  contains END_SEEK_MARKER data && verbose args = false ->
  scan args fn data infile w = extract data w.
Proof.
  intros H1 H2.
  assert (H0 : is_empty data = false) by (now destruct data).
  destruct infile as [|e rest]; cbn [scan]; rewrite H0; unfold bind at 1;
    (destruct (contains END_SEEK_MARKER data); simpl in H2;
     [rewrite H2|]; unfold ret at 1; now rewrite H1).
Qed.

(** In verbose mode the loop ends at a line with the stop marker. *)
Lemma scan_at_stop (args : Namespace) (fn data : string) (infile : stream)
    (w : World) :
  verbose args = true ->
  contains END_SEEK_MARKER data = true ->
  scan args fn data infile w
  = (inr "",
     printed ("reached " ++ END_SEEK_MARKER
              ++ " without finding customer name") w).
Proof.
  intros V H.
  assert (H0 : is_empty data = false) by (now destruct data).
  destruct infile as [|e rest]; cbn [scan]; rewrite H0; unfold bind at 1;
    now rewrite H, V.
Qed.

(** The token is the text after the first [>], up to the next [<] or [>] or
    to the end of the line. *)
Lemma extract_token (a t rest : string) (w : World) :
  has_char ">" a = false ->
  has_char ">" t = false ->
  has_char "<" t = false ->
  token_end rest = true ->
  extract (a ++ ">" ++ t ++ rest) w = (inr t, w).
Proof.
  intros Ha Ht Ht' Hr. unfold extract, bind, index.
  change (a ++ ">" ++ t ++ rest) with (a ++ String ">" (t ++ rest)).
  rewrite (split_first _ _ _ Ha). cbn [nth_error].
  rewrite (split_prepend _ _ _ Ht).
  assert (E : exists v, split "<" (t ++ hd "" (split ">" rest)) = t :: v).
  { destruct rest as [|c rest]; cbn [split hd].
    - rewrite append_nil_r, (split_none _ _ Ht'). now exists [].
    - simpl in Hr. destruct (Ascii.eqb c ">") eqn:Ec.
      + cbn [hd]. rewrite append_nil_r, (split_none _ _ Ht'). now exists [].
      + rewrite orb_false_r in Hr. apply Ascii.eqb_eq in Hr as ->.
        destruct (split ">" rest) as [|y r] eqn:Es.
        * exfalso. now apply (split_not_nil ">" rest).
        * cbn [hd]. rewrite (split_first _ _ _ Ht'). eauto. }
  destruct E as [v E]. unfold ret at 1. cbn iota. now rewrite E.
Qed.

(** The loop, one turn unfolded. *)
Lemma scan_eq (args : Namespace) (fn data : string) (infile : stream)
    (w : World) :
  scan args fn data infile w =
  if is_empty data then (inr "", w)
  else if contains END_SEEK_MARKER data && verbose args then
    (inr "", printed ("reached " ++ END_SEEK_MARKER
                      ++ " without finding customer name") w)
  else if contains CUST_ACCT_SEARCH_STR data then extract data w
  else match infile with
       | [] => (inr "", logged (SysReadline fn) w)
       | Line s :: rest => scan args fn s rest (logged (SysReadline fn) w)
       | ReadError :: _ => (inl UnicodeDecodeError, logged (SysReadline fn) w)
       end.
Proof.
  destruct infile as [|[s|] rest]; cbn [scan];
    (destruct (is_empty data); [reflexivity|]);
    unfold bind at 1;
    destruct (contains END_SEEK_MARKER data), (verbose args); cbn;
    try reflexivity;
    destruct (contains CUST_ACCT_SEARCH_STR data); reflexivity.
Qed.

(** The body of the [try], unfolded up to the loop. *)
Lemma scan_file_eq (args : Namespace) (fn : string) (w : World) :
  scan_file args fn w =
  match os_open (fs w) fn with
  | None => (inl OSError, logged (SysOpen fn) w)
  | Some h =>
      let w1 := logged (SysReadline fn) (logged (SysOpen fn) w) in
      match h with
      | [] => (inr "", w1)
      | Line s :: rest => scan args fn s rest w1
      | ReadError :: _ => (inl UnicodeDecodeError, w1)
      end
  end.
Proof.
  unfold scan_file, open_r, readline, bind, trace. cbn.
  destruct (os_open (fs w) fn) as [[|[s|] rest]|]; reflexivity.
Qed.

(** The scanner: the [try] with its handler, then the trace line. *)
Lemma file_load_and_search_eq (args : Namespace) (fn : string) (w : World) :
  file_load_and_search args fn w =
  match scan_file args fn w with
  | (inr t, w1) =>
      (inr t, snd (when (verbose args)
                     (print ("Customer Name Found: " ++ t)) w1))
  | (inl _, w1) =>
      (inr "",
       snd (when (verbose args) (print "Customer Name Found: ")
              (snd (when (verbose args)
                      (print ("bad filename " ++ fn ++ ", skipping")) w1))))
  end.
Proof.
  unfold file_load_and_search, try_except, bind.
  destruct (scan_file args fn w) as [[e|t] w1];
    destruct (verbose args); reflexivity.
Qed.

(** The scanner never raises. *)
Lemma file_load_and_search_returns (args : Namespace) (fn : string)
    (w : World) :
  exists t, fst (file_load_and_search args fn w) = inr t.
Proof.
  rewrite file_load_and_search_eq.
  destruct (scan_file args fn w) as [[e|t] w1]; cbn [fst]; eauto.
Qed.

Lemma scan_untouched (args : Namespace) (fn : string) (infile : stream) :
  forall (data : string) (w : World),
    untouched w (snd (scan args fn data infile w)).
Proof.
  induction infile as [|[s|] rest IH]; intros data w; rewrite scan_eq;
    (destruct (is_empty data); [apply untouched_refl|]);
    (destruct (contains END_SEEK_MARKER data && verbose args);
     [apply untouched_printed|]);
    (destruct (contains CUST_ACCT_SEARCH_STR data);
     [rewrite extract_world; apply untouched_refl|]).
  - now apply untouched_logged.
  - eapply untouched_trans; [|apply IH]. now apply untouched_logged.
  - now apply untouched_logged.
Qed.

Lemma scan_file_untouched (args : Namespace) (fn : string) (w : World) :
  untouched w (snd (scan_file args fn w)).
Proof.
  rewrite scan_file_eq.
  assert (H1 : untouched w (logged (SysOpen fn) w))
    by now apply untouched_logged.
  assert (H2 : untouched w (logged (SysReadline fn) (logged (SysOpen fn) w))).
  { eapply untouched_trans; [exact H1|]. now apply untouched_logged. }
  destruct (os_open (fs w) fn) as [[|[s|] rest]|]; cbn [snd]; try assumption.
  eapply untouched_trans; [exact H2 | apply scan_untouched].
Qed.

(** Scanning leaves the file system alone. *)
Lemma file_load_and_search_untouched (args : Namespace) (fn : string)
    (w : World) :
  untouched w (snd (file_load_and_search args fn w)).
Proof.
  rewrite file_load_and_search_eq.
  pose proof (scan_file_untouched args fn w) as H.
  destruct (scan_file args fn w) as [[e|t] w1]; cbn [snd] in *.
  - eapply untouched_trans; [exact H|].
    eapply untouched_trans; apply untouched_when_print.
  - eapply untouched_trans; [exact H | apply untouched_when_print].
Qed.

(** A token that is not empty was read from a file that could be opened. *)
Lemma token_from_open_file (args : Namespace) (fn t : string) (w : World) :
  fst (file_load_and_search args fn w) = inr t -> t <> "" ->
  os_open (fs w) fn <> None.
Proof.
  rewrite file_load_and_search_eq, scan_file_eq. intros H Ht E.
  rewrite E in H. cbn in H. congruence.
Qed.

(** The loop passes over a run of lines, one [readline] for each. *)
Lemma scan_through (args : Namespace) (fn : string) (l : string)
    (post : stream) :
  forall (pre : list string) (data : string) (w : World),
    forallb (passes args) (data :: pre) = true ->
    exists w',
      scan args fn data (map Line pre ++ Line l :: post)%list w
      = scan args fn l post w'
      /\ fs w' = fs w /\ stdout w' = stdout w
      /\ calls w' = (calls w ++ repeat (SysReadline fn) (S (length pre)))%list.
Proof.
  induction pre as [|p pre IH]; intros data w H;
    cbn [forallb] in H; apply andb_prop in H as [H1 H2].
  - cbn [map app]. rewrite (scan_pass _ _ _ _ _ _ H1).
    eexists. split; [reflexivity|]. now cbn.
  - cbn [map app]. rewrite (scan_pass _ _ _ _ _ _ H1).
    destruct (IH p (logged (SysReadline fn) w) H2) as (w' & E & F & O & C).
    exists w'. split; [exact E|]. cbn in *. repeat split; try assumption.
    rewrite C, <- app_assoc. reflexivity.
Qed.

(** The same from the opening of the file. *)
Lemma scan_file_through (args : Namespace) (fn : string) (l : string)
    (pre : list string) (post : stream) (w : World) :
  os_open (fs w) fn = Some (map Line pre ++ Line l :: post)%list ->
  forallb (passes args) pre = true ->
  exists w',
    scan_file args fn w = scan args fn l post w'
    /\ fs w' = fs w /\ stdout w' = stdout w
    /\ calls w'
       = (calls w ++ SysOpen fn :: repeat (SysReadline fn) (S (length pre)))%list.
Proof.
  intros O H. rewrite scan_file_eq, O. destruct pre as [|p pre]; cbn [map app].
  - eexists. split; [reflexivity|]. cbn. repeat split.
    now rewrite <- app_assoc.
  - cbv zeta.
    destruct (scan_through args fn l post pre p
                (logged (SysReadline fn) (logged (SysOpen fn) w)) H)
      as (w' & E & F & S' & C).
    exists w'. split; [exact E|]. cbn in *. repeat split; try assumption.
    rewrite C, <- !app_assoc. reflexivity.
Qed.

(** When the first line with the search marker has no [>], the loop ends
    without a token: it was left before that line, or the indexing failed. *)
Lemma scan_marker_without_gt (args : Namespace) (fn : string) (l : string)
    (post : stream) :
  contains CUST_ACCT_SEARCH_STR l = true ->
  has_char ">" l = false ->
  forall (pre : list string) (data : string) (w : World),
    forallb (fun x => negb (contains CUST_ACCT_SEARCH_STR x)) (data :: pre)
    = true ->
    let r := scan args fn data (map Line pre ++ Line l :: post)%list w in
    fst r = inr "" \/ fst r = inl IndexError.
Proof.
  intros Hl Hg.
  assert (L : forall w, let r := scan args fn l post w in
                        fst r = inr "" \/ fst r = inl IndexError).
  { intros w. cbv zeta. rewrite scan_eq.
    destruct (is_empty l); [now left|].
    destruct (contains END_SEEK_MARKER l && verbose args); [now left|].
    rewrite Hl, (extract_no_gt _ _ Hg). now right. }
  induction pre as [|p pre IH]; intros data w H; cbv zeta;
    cbn [forallb] in H; apply andb_prop in H as [H1 H2];
    apply negb_true_iff in H1; rewrite scan_eq;
    (destruct (is_empty data); [now left|]);
    (destruct (contains END_SEEK_MARKER data && verbose args); [now left|]);
    rewrite H1; cbn [map app].
  - apply L.
  - apply IH. exact H2.
Qed.

End ScannerFacts.

(** ** The renamer and the driver *)

Section DriverFacts.

Context {P : Platform}.
Import PyStr PyStrFacts.

Lemma file_rename_eq (args : Namespace) (fn name : string) (w : World) :
  file_rename args fn name w =
  if contains name fn then
    when (verbose args)
      (print ("Customer name already in filename, skipping " ++ fn)) w
  else
    let src := PurePath.to_str (PurePath.parse fn) in
    let dst := PurePath.to_str (new_path fn name) in
    match os_rename (fs w) src dst with
    | Some m =>
        when (verbose args) (print ("new file name = " ++ new_name fn name))
          (mkWorld m (stdout w) (calls w ++ [SysRename src dst])%list)
    | None => (inl OSError, logged (SysRename src dst) w)
    end.
Proof.
  unfold file_rename. destruct (contains name fn); [reflexivity|].
  unfold rename, bind, trace. cbn.
  destruct (os_rename (fs w) _ _); reflexivity.
Qed.

Lemma process_with_eq (renamer : Namespace -> string -> string -> M unit)
    (args : Namespace) (fn : string) (w : World) :
  process_with renamer args fn w =
  match file_load_and_search args fn w with
  | (inr t, w1) =>
      if String.eqb t "" then
        when (verbose args)
          (print ("No customer information read from file " ++ fn)) w1
      else renamer args fn t w1
  | (inl e, w1) => (inl e, w1)
  end.
Proof.
  unfold process_with, bind.
  destruct (file_load_and_search args fn w) as [[e|t] w1]; [reflexivity|].
  now destruct (String.eqb t "").
Qed.

(** A file without a token is passed by: the driver returns to its loop and
    the file system was left alone. *)
Lemma process_skips (renamer : Namespace -> string -> string -> M unit)
    (args : Namespace) (fn : string) (w : World) :
  fst (file_load_and_search args fn w) = inr "" ->
  fst (process_with renamer args fn w) = inr tt /\
  untouched w (snd (process_with renamer args fn w)).
Proof.
  intros H. rewrite process_with_eq.
  pose proof (file_load_and_search_untouched args fn w) as U.
  destruct (file_load_and_search args fn w) as [[e|t] w1];
    cbn [fst snd] in *; [discriminate|].
  injection H as ->. cbn [String.eqb].
  split; [apply untouched_when_print|].
  eapply untouched_trans; [exact U | apply untouched_when_print].
Qed.

Lemma for_each_cons {A} (x : A) (l : list A) (body : A -> M unit)
    (w : World) :
  fst (body x w) = inr tt ->
  for_each (x :: l) body w = for_each l body (snd (body x w)).
Proof.
  intros H. cbn [for_each]. unfold bind.
  destruct (body x w) as [[e|[]] w1]; cbn in *; [discriminate | reflexivity].
Qed.

Lemma for_each_raise {A} (x : A) (l : list A) (body : A -> M unit)
    (w : World) (e : exn) :
  fst (body x w) = inl e ->
  for_each (x :: l) body w = (inl e, snd (body x w)).
Proof.
  intros H. cbn [for_each]. unfold bind.
  destruct (body x w) as [[e'|[]] w1]; cbn in *; congruence.
Qed.

Lemma for_each_app {A} (l1 l2 : list A) (body : A -> M unit) (w w1 : World) :
  for_each l1 body w = (inr tt, w1) ->
  for_each (l1 ++ l2)%list body w = for_each l2 body w1.
Proof.
  revert w; induction l1 as [|x l1 IH]; intros w H.
  - cbn in H. injection H as ->. reflexivity.
  - cbn [for_each app] in *. unfold bind in *.
    destruct (body x w) as [[e|[]] w']; [discriminate|]. now apply IH.
Qed.

(** The driver hands the renamer no empty token: two renamers that agree on
    the other tokens give the same run. *)
Lemma process_with_ext
    (r1 r2 : Namespace -> string -> string -> M unit)
    (args : Namespace) (fn : string) (w : World) :
  (forall a f t, t <> "" -> r1 a f t = r2 a f t) ->
  process_with r1 args fn w = process_with r2 args fn w.
Proof.
  intros H. rewrite !process_with_eq.
  destruct (file_load_and_search args fn w) as [[e|t] w1]; [reflexivity|].
  destruct (String.eqb_spec t ""); [reflexivity|]. now rewrite H.
Qed.

Lemma for_each_ext {A} (l : list A) (b1 b2 : A -> M unit) (w : World) :
  (forall x w, b1 x w = b2 x w) -> for_each l b1 w = for_each l b2 w.
Proof.
  intros H. revert w; induction l as [|x l IH]; intros w; [reflexivity|].
  cbn [for_each]. unfold bind. rewrite H.
  destruct (b2 x w) as [[e|[]] w']; [reflexivity | apply IH].
Qed.

Lemma main_with_ext
    (r1 r2 : Namespace -> string -> string -> M unit)
    (argv : Namespace) (w : World) :
  (forall a f t, t <> "" -> r1 a f t = r2 a f t) ->
  main_with r1 argv w = main_with r2 argv w.
Proof.
  intros H. unfold main_with, run_with, bind.
  destruct (read_cli argv w) as [[e|args] w1]; [reflexivity|].
  destruct (announce args w1) as [[e|[]] w2]; [reflexivity|].
  rewrite (for_each_ext _ (process_with r1 args) (process_with r2 args));
    [reflexivity|].
  intros x w'. now apply process_with_ext.
Qed.

End DriverFacts.

(** ** The claims about the scanner *)

Section ScannerClaims.

Context {P : Platform}.
Import PyStr PyStrFacts.

(** C7: when the scan of a file raises (the file cannot be opened, or reading
    it fails), the scanner catches the failure and returns the empty string;
    the driver takes the file as one without a token, leaves it as it is and
    goes on with the files that remain. *)
Theorem scan_failure_skips_file (args : Namespace) (fn : string)
    (rest : list string) (w w1 : World) (e : exn) :
  scan_file args fn w = (inl e, w1) ->
  fst (file_load_and_search args fn w) = inr ""
  /\ fst (process args fn w) = inr tt
  /\ untouched w (snd (process args fn w))
  /\ for_each (fn :: rest) (process args) w
     = for_each rest (process args) (snd (process args fn w)).
Proof.
  intros H.
  assert (T : fst (file_load_and_search args fn w) = inr "").
  { rewrite file_load_and_search_eq, H. reflexivity. }
  destruct (process_skips file_rename args fn w T) as [R U].
  split; [exact T|]. split; [exact R|]. split; [exact U|].
  now apply for_each_cons.
Qed.

(** The failures meant: the file cannot be opened. *)
Lemma scan_file_missing (args : Namespace) (fn : string) (w : World) :
  os_open (fs w) fn = None ->
  scan_file args fn w = (inl OSError, logged (SysOpen fn) w).
Proof. intros H. now rewrite scan_file_eq, H. Qed.

(** The failures meant: reading fails after lines that were passed over. *)
Lemma scan_file_undecodable (args : Namespace) (fn : string)
    (pre : list string) (post : stream) (w : World) :
  os_open (fs w) fn = Some (map Line pre ++ ReadError :: post)%list ->
  forallb (passes args) pre = true ->
  fst (scan_file args fn w) = inl UnicodeDecodeError.
Proof.
  intros O H.
  assert (L : forall (pre : list string) (p : string) (w0 : World),
             forallb (passes args) (p :: pre) = true ->
             fst (scan args fn p (map Line pre ++ ReadError :: post)%list w0)
             = inl UnicodeDecodeError).
  { clear. induction pre as [|q pre IH]; intros p w0 H;
      cbn [forallb] in H; apply andb_prop in H as [H1 H2]; cbn [map app].
    - rewrite scan_eq. unfold passes in H1.
      apply andb_prop in H1 as [H1 H3]. apply andb_prop in H1 as [H0 H1].
      apply negb_true_iff in H0, H1, H3. now rewrite H0, H3, H1.
    - rewrite (scan_pass _ _ _ _ _ _ H1). now apply IH. }
  rewrite scan_file_eq, O. cbv zeta.
  destruct pre as [|p pre]; [reflexivity|]. cbn [map app]. now apply L.
Qed.

(** C10: when the first line with the search marker has no [>] in it, no
    exception leaves the scanner: it returns the empty string and the driver
    passes the file by; where the scan gets to that line, it is the indexing
    failure that the scanner catches. *)
Theorem missing_bracket_is_skipped (args : Namespace) (fn : string)
    (pre : list string) (l : string) (post : stream) (w : World) :
  os_open (fs w) fn = Some (map Line pre ++ Line l :: post)%list ->
  forallb (fun x => negb (contains CUST_ACCT_SEARCH_STR x)) pre = true ->
  contains CUST_ACCT_SEARCH_STR l = true ->
  has_char ">" l = false ->
  fst (file_load_and_search args fn w) = inr ""
  /\ fst (process args fn w) = inr tt
  /\ untouched w (snd (process args fn w))
  /\ (forallb (passes args) pre = true ->
      contains END_SEEK_MARKER l && verbose args = false ->
      fst (scan_file args fn w) = inl IndexError).
Proof.
  intros O H Hl Hg.
  assert (S : fst (scan_file args fn w) = inr ""
              \/ fst (scan_file args fn w) = inl IndexError).
  { rewrite scan_file_eq, O. cbv zeta.
    destruct pre as [|p pre]; cbn [map app].
    - rewrite scan_eq.
      destruct (is_empty l); [now left|].
      destruct (contains END_SEEK_MARKER l && verbose args); [now left|].
      rewrite Hl, (extract_no_gt _ _ Hg). now right.
    - now apply scan_marker_without_gt. }
  assert (T : fst (file_load_and_search args fn w) = inr "").
  { rewrite file_load_and_search_eq.
    destruct (scan_file args fn w) as [[e|t] w1]; cbn [fst] in *.
    - reflexivity.
    - destruct S as [S|S]; [|discriminate]. now injection S as ->. }
  destruct (process_skips file_rename args fn w T) as [R U].
  split; [exact T|]. split; [exact R|]. split; [exact U|].
  intros Hp He.
  destruct (scan_file_through args fn l pre post w O Hp) as (w' & E & _).
  rewrite E, (scan_at_marker _ _ _ _ _ Hl He), (extract_no_gt _ _ Hg).
  reflexivity.
Qed.

(** C3, as the code has it: on the first line with the search marker (no
    stop marker on it, the lines before it passed over) the scanner returns
    the text that follows the first [>] of the line, up to the next [<] or
    [>] or to the end of the line, whichever comes first; where a [<] comes
    first this is the text strictly between the first [>] and the next [<];
    and when that text is empty the driver does not rename the file. *)
Theorem scanner_returns_token (args : Namespace) (fn : string)
    (pre : list string) (a t rest : string) (post : stream) (w : World) :
  os_open (fs w) fn
  = Some (map Line pre ++ Line (a ++ ">" ++ t ++ rest) :: post)%list ->
  forallb (passes args) pre = true ->
  contains CUST_ACCT_SEARCH_STR (a ++ ">" ++ t ++ rest) = true ->
  contains END_SEEK_MARKER (a ++ ">" ++ t ++ rest) = false ->
  has_char ">" a = false ->
  has_char ">" t = false ->
  has_char "<" t = false ->
  token_end rest = true ->
  fst (file_load_and_search args fn w) = inr t
  /\ (forall r, rest = String "<" r ->
      Spec.between_tags (a ++ ">" ++ t ++ rest) = Some t)
  /\ (t = "" ->
      fst (process args fn w) = inr tt
      /\ untouched w (snd (process args fn w))).
Proof.
  intros O Hp Hc He Ha Ht Ht' Hr.
  assert (T : fst (file_load_and_search args fn w) = inr t).
  { rewrite file_load_and_search_eq.
    destruct (scan_file_through args fn _ pre post w O Hp) as (w' & E & _).
    rewrite E, scan_at_marker, extract_token; try assumption.
    - reflexivity.
    - now rewrite He. }
  split; [exact T|]. split.
  - intros r ->. unfold Spec.between_tags.
    assert (A : forall u v, has_char ">" u = false ->
                Spec.after_first ">" (u ++ String ">" v) = Some v).
    { induction u as [|x u IH]; intros v Hu; simpl in *.
      - reflexivity.
      - destruct (Ascii.eqb x ">"); [discriminate | now apply IH]. }
    assert (B : forall u v, has_char "<" u = false ->
                Spec.before_first "<" (u ++ String "<" v) = Some u).
    { induction u as [|x u IH]; intros v Hu; simpl in *.
      - reflexivity.
      - destruct (Ascii.eqb x "<"); [discriminate|]. now rewrite IH. }
    change (a ++ ">" ++ t ++ String "<" r)
      with (a ++ String ">" (t ++ String "<" r)).
    now rewrite A, B.
  - intros ->. now apply process_skips.
Qed.

End ScannerClaims.

(** ** The claims about the renamer *)

Section RenamerClaims.

Context {P : Platform}.
Import PyStr PyStrFacts PurePathFacts.

Lemma new_name_eq (fn T : string) :
  new_name fn T = T ++ "_" ++ PurePath.name (PurePath.parse fn).
Proof. unfold new_name. now rewrite stem_suffix. Qed.

(** With a token that has no separator in it, the new basename is one
    component. *)
Lemma new_name_component (fn T : string) :
  has_char "/" T = false ->
  has_char "/" (new_name fn T) = false /\ PurePath.keep (new_name fn T) = true.
Proof.
  intros H. rewrite new_name_eq. split.
  - rewrite !has_char_append, H, name_clean. reflexivity.
  - unfold PurePath.keep.
    destruct T as [|c [|d T]]; cbn; try reflexivity;
      destruct (Ascii.eqb c "."); reflexivity.
Qed.

Lemma new_path_eq (fn T : string) :
  has_char "/" T = false ->
  new_path fn T
  = PurePath.mk (PurePath.root (PurePath.parse fn))
      (removelast (PurePath.parts (PurePath.parse fn)) ++ [new_name fn T])%list.
Proof.
  intros H. destruct (new_name_component fn T H) as [H1 H2].
  unfold new_path, PurePath.joinpath.
  now rewrite (parse_component _ H1 H2).
Qed.

(** What the renamer does, on every path and token: nothing when the token
    occurs in the path, else one call of [os.rename]. *)
Lemma file_rename_effect (args : Namespace) (fn T : string) (w : World) :
  let r := file_rename args fn T w in
  let src := PurePath.to_str (PurePath.parse fn) in
  let dst := PurePath.to_str (new_path fn T) in
  if contains T fn then
    fst r = inr tt /\ fs (snd r) = fs w /\ calls (snd r) = calls w
  else
    calls (snd r) = (calls w ++ [SysRename src dst])%list
    /\ match os_rename (fs w) src dst with
       | Some m => fst r = inr tt /\ fs (snd r) = m
       | None => fst r = inl OSError /\ fs (snd r) = fs w
                 /\ stdout (snd r) = stdout w
       end.
Proof.
  cbv zeta. rewrite file_rename_eq. destruct (contains T fn).
  - destruct (verbose args); cbn; auto.
  - cbv zeta. destruct (os_rename (fs w) _ _);
      destruct (verbose args); cbn; auto.
Qed.

(** C2, as the code has it: the renamer returns without a call on the file
    system exactly when the token occurs in the path string it was given,
    directory part included; a token that occurs in the basename occurs in
    the path, so then the file is left alone; a token that occurs nowhere in
    the path leads to the rename. *)
Theorem rename_skipped_iff_token_in_path (args : Namespace) (fn T : string)
    (w : World) :
  let r := file_rename args fn T w in
  (contains T fn = true ->
   fst r = inr tt /\ fs (snd r) = fs w /\ calls (snd r) = calls w)
  /\ (contains T fn = false ->
      calls (snd r)
      = (calls w ++ [SysRename (PurePath.to_str (PurePath.parse fn))
                               (PurePath.to_str (new_path fn T))])%list
      /\ fs (snd r)
         = match os_rename (fs w) (PurePath.to_str (PurePath.parse fn))
                   (PurePath.to_str (new_path fn T)) with
           | Some m => m
           | None => fs w
           end)
  /\ (contains T (PurePath.name (PurePath.parse fn)) = true ->
      contains T fn = true).
Proof.
  cbv zeta. pose proof (file_rename_effect args fn T w) as E. cbv zeta in E.
  split; [|split].
  - intros H. now rewrite H in E.
  - intros H. rewrite H in E. destruct E as [C E]. split; [exact C|].
    destruct (os_rename (fs w) _ _); apply E.
  - apply contains_name.
Qed.

(** C6, as the code has it: for a token that does not occur in the path
    string and has no path separator in it, the renamer asks for the rename
    of the path to the same parent directory with the basename made of the
    token, one underscore, the old stem and the old extension; an extension
    that is not empty is also the extension of the new name. *)
Theorem rename_target (args : Namespace) (fn T : string) (w : World) :
  contains T fn = false ->
  has_char "/" T = false ->
  let p := PurePath.parse fn in
  let q := new_path fn T in
  calls (snd (file_rename args fn T w))
  = (calls w ++ [SysRename (PurePath.to_str p) (PurePath.to_str q)])%list
  /\ PurePath.name q = T ++ "_" ++ PurePath.stem p ++ PurePath.suffix p
  /\ PurePath.stem p ++ PurePath.suffix p = PurePath.name p
  /\ PurePath.parent q = PurePath.parent p
  /\ (PurePath.suffix p <> "" ->
      PurePath.suffix q = PurePath.suffix p
      /\ PurePath.stem q = T ++ "_" ++ PurePath.stem p).
Proof.
  intros Hc Hs. cbv zeta.
  pose proof (file_rename_effect args fn T w) as E. cbv zeta in E.
  rewrite Hc in E. destruct E as [E _].
  assert (N : PurePath.name (new_path fn T) = new_name fn T).
  { rewrite (new_path_eq _ _ Hs). unfold PurePath.name. cbn [PurePath.parts].
    apply last_last. }
  split; [exact E|]. split; [exact N|]. split; [apply stem_suffix|]. split.
  - rewrite (new_path_eq _ _ Hs). unfold PurePath.parent.
    cbn [PurePath.root PurePath.parts]. now rewrite removelast_last.
  - intros Hx. unfold PurePath.suffix, PurePath.stem in *.
    rewrite N, new_name_eq.
    destruct (PurePath.suffix_at (PurePath.name (PurePath.parse fn)))
      as [i|] eqn:Ei; [|contradiction].
    replace (T ++ "_" ++ PurePath.name (PurePath.parse fn))
      with ((T ++ "_") ++ PurePath.name (PurePath.parse fn))
      by apply append_assoc.
    rewrite (suffix_at_append _ _ _ Ei), drop_append, take_append.
    split; [reflexivity | apply append_assoc].
Qed.

(** C9: with the empty string as the token the renamer makes no call on the
    file system, since the empty string occurs in every path; and the driver
    never hands the renamer an empty token, so that a renamer which raises on
    the empty token gives the very same run. *)
Theorem empty_token_never_renames (args : Namespace) (fn : string)
    (w : World) (argv : Namespace) (w0 : World) :
  (contains "" fn = true
   /\ fst (file_rename args fn "" w) = inr tt
   /\ fs (snd (file_rename args fn "" w)) = fs w
   /\ calls (snd (file_rename args fn "" w)) = calls w)
  /\ main argv w0 = main_with (guarded file_rename) argv w0.
Proof.
  split.
  - pose proof (file_rename_effect args fn "" w) as E. cbv zeta in E.
    rewrite contains_nil in E. split; [apply contains_nil | exact E].
  - apply main_with_ext. intros a f t Ht. unfold guarded.
    now destruct (String.eqb_spec t "").
Qed.

End RenamerClaims.

(** ** The claims about the driver *)

Section DriverClaims.

Context {P : Platform}.
Import PyStr PyStrFacts PurePathFacts.

Lemma renames_only_trans (m1 m2 m3 : FS) :
  renames_only m1 m2 -> renames_only m2 m3 -> renames_only m1 m3.
Proof.
  induction 1 as [m|m ma mb fn dst O R _ IH]; intros H; [exact H|].
  eapply renames_step; eauto.
Qed.

Lemma for_each_print (g : string -> string) (l : list string) :
  forall w : World,
    fst (for_each l (fun f => print (g f)) w) = inr tt
    /\ untouched w (snd (for_each l (fun f => print (g f)) w)).
Proof.
  induction l as [|x l IH]; intros w; cbn.
  - split; [reflexivity | apply untouched_refl].
  - destruct (IH (printed (g x) w)) as [R U]. split; [exact R|].
    eapply untouched_trans; [apply untouched_printed | exact U].
Qed.

Lemma announce_ok (args : Namespace) (w : World) :
  fst (announce args w) = inr tt /\ untouched w (snd (announce args w)).
Proof.
  unfold announce, when. destruct (verbose args); cbn.
  - destruct (for_each_print (fun f => TAB ++ f) (files args)
                (printed (LF ++ "Files to be parsed:") w)) as [R U].
    split; [exact R|].
    eapply untouched_trans; [apply untouched_printed | exact U].
  - split; [reflexivity | apply untouched_refl].
Qed.

Lemma collect_matches_untouched (args : Namespace) (cp pat : string)
    (listing : list string) :
  forall (acc : list string) (w : World),
    untouched w (snd (collect_matches args cp pat listing acc w)).
Proof.
  induction listing as [|f rest IH]; intros acc w; cbn [collect_matches].
  - apply untouched_refl.
  - destruct (fnmatch f pat); [|apply IH].
    unfold bind.
    pose proof (untouched_when_print (verbose args)
                  ("Appending " ++ f ++ " to list to process") w) as [R U].
    destruct (when (verbose args) _ w) as [[e|[]] w1]; cbn [fst snd] in *;
      [discriminate|].
    eapply untouched_trans; [exact U | apply IH].
Qed.

Lemma resolve_windows_path_untouched (args : Namespace) (path : string)
    (w : World) :
  untouched w (snd (resolve_windows_path args path w)).
Proof.
  unfold resolve_windows_path. cbv zeta.
  set (cp := if String.eqb _ "" then "." else _).
  set (pat := PurePath.stem _ ++ PurePath.suffix _).
  unfold bind at 1.
  pose proof (untouched_when_print (verbose args) ("Seaching " ++ cp) w)
    as [R U].
  destruct (when (verbose args) _ w) as [[e|[]] w1]; cbn [fst snd] in *;
    [discriminate|].
  eapply untouched_trans; [exact U|].
  unfold bind, listdir, trace. cbn.
  assert (L : untouched w1 (logged (SysListdir cp) w1))
    by now apply untouched_logged.
  destruct (os_listdir (fs w1) cp) as [listing|]; cbn [snd]; [|exact L].
  eapply untouched_trans; [exact L | apply collect_matches_untouched].
Qed.

(** Reading the command line leaves the file system alone. *)
Lemma read_cli_untouched (argv : Namespace) (w : World) :
  untouched w (snd (read_cli argv w)).
Proof.
  unfold read_cli.
  destruct (Nat.leb _ 0); [cbn; apply untouched_printed|].
  destruct (Nat.eqb _ 1 && contains "*" _); [|apply untouched_refl].
  unfold bind.
  pose proof (resolve_windows_path_untouched argv (nth 0 (files argv) "") w)
    as U.
  destruct (resolve_windows_path argv _ w) as [[e|l] w1]; exact U.
Qed.

(** One turn of the loop changes the file system by at most one rename, of
    the file just scanned. *)
Lemma process_renames (args : Namespace) (fn : string) (w : World) :
  renames_only (fs w) (fs (snd (process args fn w))).
Proof.
  unfold process. rewrite process_with_eq.
  pose proof (file_load_and_search_untouched args fn w) as [F _].
  pose proof (fun t => token_from_open_file args fn t w) as O.
  destruct (file_load_and_search args fn w) as [[e|t] w1];
    cbn [fst snd] in *.
  - rewrite F. constructor.
  - destruct (String.eqb_spec t "") as [->|Ht].
    + destruct (verbose args); cbn; rewrite F; constructor.
    + pose proof (file_rename_effect args fn t w1) as E. cbv zeta in E.
      destruct (contains t fn).
      * destruct E as (_ & E & _). rewrite E, F. constructor.
      * destruct E as [_ E].
        destruct (os_rename (fs w1) _ _) as [m|] eqn:R.
        -- destruct E as [_ E]. rewrite E. rewrite F in R.
           eapply renames_step; [|exact R|constructor].
           exact (O t eq_refl Ht).
        -- destruct E as (_ & E & _). rewrite E, F. constructor.
Qed.


Lemma loop_renames (args : Namespace) (l : list string) :
  forall w : World,
    renames_only (fs w) (fs (snd (for_each l (process args) w))).
Proof.
  induction l as [|fn l IH]; intros w; cbn [for_each]; [constructor|].
  unfold bind. pose proof (process_renames args fn w) as R.
  destruct (process args fn w) as [[e|[]] w1]; cbn [snd] in *; [exact R|].
  eapply renames_only_trans; [exact R | apply IH].
Qed.


(** The block of [__main__] changes the file system by renames only. *)
Lemma run_renames (args : Namespace) (w : World) :
  renames_only (fs w) (fs (snd (run_with file_rename args w))).
Proof.
  unfold run_with, bind.
  pose proof (announce_ok args w) as [R [F _]].
  destruct (announce args w) as [[e|[]] w0]; cbn [fst snd] in *;
    [discriminate|].
  pose proof (loop_renames args (files args) w0) as L. rewrite F in L.
  fold (process args).
  destruct (for_each (files args) (process args) w0) as [[e|[]] w1];
    cbn [snd] in *; [exact L|].
  destruct (verbose args); exact L.
Qed.


Lemma main_renames (argv : Namespace) (w : World) :
  renames_only (fs w) (fs (snd (main argv w))).
Proof.
  unfold main, main_with, bind.
  pose proof (read_cli_untouched argv w) as [F _].
  destruct (read_cli argv w) as [[e|args] w1]; cbn [snd] in *.
  - rewrite F. constructor.
  - rewrite <- F. apply run_renames.
Qed.

(** C4, as the code has it: the driver has no handler around the renamer, so
    a rename that fails ends the run at that file: the [OSError] leaves the
    loop, nothing more is printed or done for that file or for any later
    one, and the process ends with the status of an uncaught exception, 1,
    not 0. *)
Theorem rename_failure_aborts_batch (args : Namespace) (pre : list string)
    (fn : string) (rest : list string) (t : string) (w w1 w2 : World) :
  files args = (pre ++ fn :: rest)%list ->
  for_each pre (process args) (snd (announce args w)) = (inr tt, w1) ->
  file_load_and_search args fn w1 = (inr t, w2) ->
  t <> "" ->
  contains t fn = false ->
  os_rename (fs w2) (PurePath.to_str (PurePath.parse fn))
            (PurePath.to_str (new_path fn t)) = None ->
  run_with file_rename args w
  = (inl OSError,
     logged (SysRename (PurePath.to_str (PurePath.parse fn))
                       (PurePath.to_str (new_path fn t))) w2)
  /\ exit_status (fst (run_with file_rename args w)) = 1%Z.
Proof.
  intros Hf Hpre Hscan Ht Hc Hren.
  assert (E : run_with file_rename args w
              = (inl OSError,
                 logged (SysRename (PurePath.to_str (PurePath.parse fn))
                           (PurePath.to_str (new_path fn t))) w2)).
  { unfold run_with, bind.
    pose proof (announce_ok args w) as [R _].
    destruct (announce args w) as [[e|[]] w0]; cbn [fst snd] in *;
      [discriminate|].
    fold (process args). rewrite Hf, (for_each_app _ _ _ _ _ Hpre).
    assert (B : process args fn w1
                = (inl OSError,
                   logged (SysRename (PurePath.to_str (PurePath.parse fn))
                             (PurePath.to_str (new_path fn t))) w2)).
    { unfold process. rewrite process_with_eq, Hscan.
      destruct (String.eqb_spec t ""); [contradiction|].
      rewrite file_rename_eq, Hc. cbv zeta. now rewrite Hren. }
    rewrite (for_each_raise fn rest (process args) w1 OSError);
      now rewrite B. }
  split; [exact E | now rewrite E].
Qed.

End DriverClaims.

(** ** The claims about the resolver *)

Section ResolverClaims.

Context {P : Platform}.
Import PyStr PyStrFacts PurePathFacts.

(** The paths the loop over the listing adds: the corrected path with the
    child name put right after it, for the children that match, in the order
    of the listing. *)
Lemma collect_matches_value (args : Namespace) (cp pat : string)
    (listing : list string) :
  forall (acc : list string) (w : World),
    fst (collect_matches args cp pat listing acc w)
    = inr (acc ++ map (fun f => (cp ++ f)%string)
                    (filter (fun f => fnmatch f pat) listing))%list.
Proof.
  induction listing as [|f rest IH]; intros acc w;
    cbn [collect_matches filter map].
  - now rewrite app_nil_r.
  - destruct (fnmatch f pat); [|apply IH].
    unfold bind.
    pose proof (untouched_when_print (verbose args)
                  ("Appending " ++ f ++ " to list to process") w) as [R _].
    destruct (when (verbose args) _ w) as [[e|[]] w1]; cbn [fst] in *;
      [discriminate|].
    rewrite IH. cbn [map]. now rewrite <- app_assoc.
Qed.

(** C5 fails on the code for a wildcard without a directory part: the
    directory is taken to be [.], and each path emitted is [.] with the child
    name right after it, no separator in between; it is not the path
    [./name] of the child. *)
Theorem wildcard_in_cwd_lacks_separator (args : Namespace) (pat : string)
    (listing : list string) (w : World) :
  has_char "/" pat = false ->
  PurePath.keep pat = true ->
  os_listdir (fs w) "." = Some listing ->
  fst (resolve_windows_path args pat w)
  = inr (map (fun f => "." ++ f) (filter (fun f => fnmatch f pat) listing)).
Proof.
  intros Hs Hk Hl. unfold resolve_windows_path. cbv zeta.
  rewrite stem_suffix, (parse_component _ Hs Hk).
  unfold PurePath.name. cbn [PurePath.parts last].
  rewrite remove_all_self. cbn [String.eqb].
  unfold bind at 1.
  pose proof (untouched_when_print (verbose args) ("Seaching " ++ ".") w)
    as [R [F _]].
  destruct (when (verbose args) _ w) as [[e|[]] w1]; cbn [fst snd] in *;
    [discriminate|].
  unfold listdir, trace, bind. cbn [fs]. rewrite F, Hl.
  now rewrite collect_matches_value.
Qed.

(** For a wildcard with a directory part the paths emitted are the directory
    part as it was written, separator included, with the child name after
    it, provided the text of the pattern does not occur in the directory
    part as well. *)
Lemma wildcard_in_directory_emits_children (args : Namespace)
    (d pat : string) (listing : list string) (w : World) :
  has_char "/" pat = false ->
  PurePath.keep pat = true ->
  contains pat (d ++ "/") = false ->
  os_listdir (fs w) (d ++ "/") = Some listing ->
  fst (resolve_windows_path args (d ++ "/" ++ pat) w)
  = inr (map (fun f => (d ++ "/") ++ f)
           (filter (fun f => fnmatch f pat) listing)).
Proof.
  intros Hs Hk Hn Hl. unfold resolve_windows_path. cbv zeta.
  assert (Hp : pat <> "") by (intros ->; discriminate).
  rewrite stem_suffix.
  change (d ++ "/" ++ pat) with (d ++ String "/" pat).
  rewrite (name_of_path _ _ Hs Hk).
  change (d ++ String "/" pat) with (d ++ String "/" "" ++ pat).
  rewrite (remove_all_last _ _ _ Hp Hs Hn).
  assert (E : String.eqb (d ++ String "/" "") "" = false)
    by (now destruct d).
  rewrite E. unfold bind at 1.
  pose proof (untouched_when_print (verbose args)
                ("Seaching " ++ d ++ String "/" "") w) as [R [F _]].
  destruct (when (verbose args) _ w) as [[e|[]] w1]; cbn [fst snd] in *;
    [discriminate|].
  unfold listdir, trace, bind. cbn [fs]. rewrite F.
  change (d ++ String "/" "") with (d ++ "/"). rewrite Hl.
  now rewrite collect_matches_value.
Qed.

End ResolverClaims.

(** ** The in-memory file system under renames *)

Module MemFSFacts.
Import MemFS.

Lemma map_snd_rekey (k k' : string) (l : list (string * stream)) :
  map snd (rekey k k' l) = map snd l.
Proof.
  unfold rekey. rewrite map_map. apply map_ext. intros [a b]. cbn.
  now destruct (String.eqb k a).
Qed.

Lemma length_rekey (k k' : string) (l : list (string * stream)) :
  length (rekey k k' l) = length l.
Proof. unfold rekey. apply length_map. Qed.

Lemma length_delete (k : string) (l : list (string * stream)) :
  length (delete k l) <= length l.
Proof. unfold delete. apply filter_length_le. Qed.

Lemma length_delete_found (k : string) (l : list (string * stream))
    (v : stream) :
  lookup k l = Some v -> length (delete k l) < length l.
Proof.
  induction l as [|[k' v'] l IH]; cbn; [discriminate|].
  destruct (String.eqb k k'); cbn.
  - intros _. pose proof (length_delete k l). unfold delete in *. lia.
  - intros H. apply IH in H. unfold delete in *. lia.
Qed.

(** One rename either leaves the contents of the files as they are, or it
    replaces an existing file, which the platform has to allow, and then the
    files are fewer. *)
Lemma rename_keeps (m m' : t) (src dst : string) :
  rename m src dst = Some m' ->
  replace_existing m' = replace_existing m
  /\ (map snd (entries m') = map snd (entries m)
      \/ (replace_existing m = true
          /\ length (entries m') < length (entries m))).
Proof.
  unfold rename. destruct (lookup (norm src) (entries m)); [|discriminate].
  destruct (negb (mem (dirname (norm dst)) (dirs m))); [discriminate|].
  destruct (mem (norm dst) (dirs m)); [discriminate|].
  destruct (String.eqb (norm src) (norm dst)).
  - intros H. injection H as <-. auto.
  - destruct (lookup (norm dst) (entries m)) eqn:D.
    + destruct (replace_existing m) eqn:R; [|discriminate].
      intros H. injection H as <-. cbn. rewrite length_rekey.
      split; [reflexivity|]. right. split; [reflexivity|].
      exact (length_delete_found _ _ _ D).
    + intros H. injection H as <-. cbn. rewrite map_snd_rekey. auto.
Qed.

Lemma renames_only_keeps (m m' : t) :
  @renames_only platform m m' ->
  replace_existing m' = replace_existing m
  /\ (map snd (entries m') = map snd (entries m)
      \/ (replace_existing m = true
          /\ length (entries m') < length (entries m))).
Proof.
  induction 1 as [m|m m1 m' fn dst _ R _ IH]; [auto|].
  apply rename_keeps in R as (E & C). destruct IH as (E' & C').
  split; [congruence|].
  assert (L : forall a b : list (string * stream),
             map snd a = map snd b -> length a = length b).
  { intros a b H. rewrite <- (length_map snd a), <- (length_map snd b).
    now rewrite H. }
  destruct C as [C|[C1 C2]], C' as [C'|[C1' C2']].
  - left. congruence.
  - right. split; [congruence|]. rewrite <- (L _ _ C). exact C2'.
  - right. split; [exact C1|]. rewrite (L _ _ C'). exact C2.
  - right. split; [exact C1 | lia].
Qed.

End MemFSFacts.

(** ** The claims about a whole run *)

(** C8, as the code has it: across a run the file system changes only by
    renames that succeeded, each of a file the scanner could open, so that no
    file is created; and either the contents of the files after the run are
    those of before, or a rename has replaced an existing file, which only a
    platform that lets [os.rename] overwrite does, and then the files are
    fewer than before. *)
Theorem only_renames_happen :
  (forall (P : Platform) (argv : Namespace) (w : World),
      renames_only (fs w) (fs (snd (main argv w))))
  /\ (forall (argv : Namespace) (m : MemFS.t),
        let m' : MemFS.t := fs (snd (main argv (MemFS.boot m))) in
        map snd (MemFS.entries m') = map snd (MemFS.entries m)
        \/ (MemFS.replace_existing m = true
            /\ length (MemFS.entries m') < length (MemFS.entries m))).
Proof.
  split.
  - intros P argv w. apply main_renames.
  - intros argv m. cbv zeta.
    pose proof (@main_renames MemFS.platform argv (MemFS.boot m)) as R.
    now apply MemFSFacts.renames_only_keeps in R as (_ & C).
Qed.

(** ** The stop marker *)

Section StopMarker.

Context {P : Platform}.
Import PyStr PyStrFacts.

(** With tracing on, the scanner stops at the first line with the stop
    marker: it returns the empty string and has read no line after it. *)
Lemma stop_marker_heeded_when_verbose (args : Namespace) (fn : string)
    (pre : list string) (l : string) (post : stream) (w : World) :
  verbose args = true ->
  os_open (fs w) fn = Some (map Line pre ++ Line l :: post)%list ->
  forallb (passes args) pre = true ->
  contains END_SEEK_MARKER l = true ->
  fst (file_load_and_search args fn w) = inr ""
  /\ calls (snd (file_load_and_search args fn w))
     = (calls w ++ SysOpen fn :: repeat (SysReadline fn) (S (length pre)))%list.
Proof.
  intros V O Hp Hl. rewrite file_load_and_search_eq.
  destruct (scan_file_through args fn l pre post w O Hp) as (w' & E & _ & _ & C).
  rewrite E, (scan_at_stop _ _ _ _ _ V Hl), V. cbn. now rewrite C.
Qed.

(** With tracing off, a line with the stop marker and without the search
    marker is passed over like any other line. *)
Lemma stop_marker_passed_when_quiet (args : Namespace) (fn data s : string)
    (rest : stream) (w : World) :
  verbose args = false ->
  contains END_SEEK_MARKER data = true ->
  contains CUST_ACCT_SEARCH_STR data = false ->
  scan args fn data (Line s :: rest) w
  = scan args fn s rest (logged (SysReadline fn) w).
Proof.
  intros V He Hc. apply scan_pass. unfold passes.
  rewrite V, Hc, andb_false_r.
  now destruct data.
Qed.

End StopMarker.

(** C1 fails on the code when tracing is off: the [break] at the stop marker
    is under [if (args.verbose)], so that without the flag the scanner reads
    on past the line with the stop marker and returns the token of a later
    line, or of that very line when it has both markers; the driver then
    renames the files.  With the flag the scanner stops as claimed. *)
Theorem stop_marker_unheeded_when_quiet :
  fst (file_load_and_search (Examples.quiet []) "inv.xml"
         (MemFS.boot Examples.late_dir)) = inr "ACME"
  /\ calls (snd (file_load_and_search (Examples.quiet []) "inv.xml"
                   (MemFS.boot Examples.late_dir)))
     = [SysOpen "inv.xml"; SysReadline "inv.xml"; SysReadline "inv.xml";
        SysReadline "inv.xml"]
  /\ fst (file_load_and_search (Examples.quiet []) "one.xml"
            (MemFS.boot Examples.late_dir)) = inr "BOLT"
  /\ map fst (MemFS.entries
                (fs (snd (main (Examples.quiet ["inv.xml"; "one.xml"])
                            (MemFS.boot Examples.late_dir)))))
     = ["ACME_inv.xml"; "BOLT_one.xml"]
  /\ fst (file_load_and_search (Examples.chatty []) "inv.xml"
            (MemFS.boot Examples.late_dir)) = inr ""
  /\ map fst (MemFS.entries
                (fs (snd (main (Examples.chatty ["inv.xml"; "one.xml"])
                            (MemFS.boot Examples.late_dir)))))
     = ["inv.xml"; "one.xml"].
Proof. repeat split; vm_compute; reflexivity. Qed.

(** ** The claims on the examples *)

(** The token sits in the directory part only: as the claim C2 is worded the
    rename would be performed, but the renamer makes no call. *)
Lemma token_in_directory_blocks_rename :
  PyStr.is_empty "ACME" = false
  /\ PyStr.contains "ACME" (PurePath.name (PurePath.parse "ACME/inv.xml"))
     = false
  /\ file_rename (Examples.quiet []) "ACME/inv.xml" "ACME"
       (MemFS.boot Examples.token_dir)
     = (inr tt, MemFS.boot Examples.token_dir).
Proof. repeat split; vm_compute; reflexivity. Qed.

(** A second [>] before the closing tag: the text strictly between the first
    [>] and the next [<] is [A>B], the scanner returns [A]. *)
Lemma second_bracket_ends_token :
  PyStr.contains CUST_ACCT_SEARCH_STR Examples.nested_line = true
  /\ PyStr.contains END_SEEK_MARKER Examples.nested_line = false
  /\ Spec.between_tags Examples.nested_line = Some "A>B"
  /\ fst (file_load_and_search (Examples.quiet []) "d/odd.xml"
            (MemFS.boot Examples.odd_dir)) = inr "A".
Proof. repeat split; vm_compute; reflexivity. Qed.

(** The account line of [invoice], after its two head lines. *)
Lemma scanner_returns_token_witness :
  fst (file_load_and_search (Examples.chatty []) "d/a.xml"
         (MemFS.boot Examples.posix_dir)) = inr "ACME"
  /\ Spec.between_tags
       ("<Reference Customer Acct Number" ++ ">" ++ "ACME"
        ++ "</Reference>" ++ LF) = Some "ACME".
Proof.
  destruct (@scanner_returns_token MemFS.platform (Examples.chatty [])
              "d/a.xml" Examples.invoice_head
              "<Reference Customer Acct Number" "ACME" ("</Reference>" ++ LF)
              Examples.invoice_tail (MemFS.boot Examples.posix_dir))
    as (T & B & _); try reflexivity.
  split; [exact T | exact (B _ eq_refl)].
Defined.

(** The first file cannot be renamed: the run ends there with an uncaught
    [OSError] and status 1, the second file is not even opened, and the
    driver has printed nothing about the failure. *)
Lemma failed_rename_ends_run :
  fst (main Examples.batch (MemFS.boot Examples.blocked_dir)) = inl OSError
  /\ exit_status (fst (main Examples.batch (MemFS.boot Examples.blocked_dir)))
     = 1%Z
  /\ calls (snd (main Examples.batch (MemFS.boot Examples.blocked_dir)))
     = [SysOpen "d/a.xml"; SysReadline "d/a.xml"; SysReadline "d/a.xml";
        SysReadline "d/a.xml"; SysRename "d/a.xml" "d/ACME_a.xml"]
  /\ last (stdout (snd (main Examples.batch (MemFS.boot Examples.blocked_dir))))
          "" = "Customer Name Found: ACME"
  /\ fs (snd (main Examples.batch (MemFS.boot Examples.blocked_dir)))
     = Examples.blocked_dir.
Proof. repeat split; vm_compute; reflexivity. Qed.

(** The same run, from the failing call on. *)
Lemma rename_failure_aborts_batch_witness :
  os_rename (Examples.blocked_dir : @FS MemFS.platform) "d/a.xml"
    "d/ACME_a.xml" = None
  /\ exit_status
       (fst (run_with file_rename Examples.batch
               (MemFS.boot Examples.blocked_dir))) = 1%Z.
Proof.
  split; [reflexivity|].
  refine (proj2 (@rename_failure_aborts_batch MemFS.platform Examples.batch
                   [] "d/a.xml" ["d/b.xml"] "ACME"
                   (MemFS.boot Examples.blocked_dir)
                   (snd (announce Examples.batch
                           (MemFS.boot Examples.blocked_dir)))
                   (snd (file_load_and_search Examples.batch "d/a.xml"
                           (snd (announce Examples.batch
                                   (MemFS.boot Examples.blocked_dir)))))
                   _ _ _ _ _ _));
    try reflexivity.
  discriminate.
Defined.

(** [*.xml] in the working directory: the path emitted for [a.xml] names no
    file, and the run leaves the directory as it is. *)
Lemma wildcard_in_cwd_lacks_separator_witness :
  fst (resolve_windows_path (Examples.quiet ["*.xml"]) "*.xml"
         (MemFS.boot Examples.cwd_dir)) = inr [".a.xml"]
  /\ os_open (Examples.cwd_dir : @FS MemFS.platform) ".a.xml" = None
  /\ fs (snd (main (Examples.quiet ["*.xml"]) (MemFS.boot Examples.cwd_dir)))
     = Examples.cwd_dir.
Proof.
  split; [|split; reflexivity].
  exact (@wildcard_in_cwd_lacks_separator MemFS.platform
           (Examples.quiet ["*.xml"]) "*.xml" ["a.xml"; "notes.txt"]
           (MemFS.boot Examples.cwd_dir) eq_refl eq_refl eq_refl).
Defined.

(** With a directory part, the separator left in the corrected path makes
    the paths emitted those of the children. *)
Example wildcard_in_directory :
  fst (resolve_windows_path (Examples.quiet ["d/*.xml"]) "d/*.xml"
         (MemFS.boot Examples.posix_dir)) = inr ["d/a.xml"; "d/b.xml"]
  /\ map fst (MemFS.entries
                (fs (snd (main (Examples.quiet ["d/*.xml"])
                            (MemFS.boot Examples.posix_dir)))))
     = ["d/ACME_a.xml"; "d/BOLT_b.xml"].
Proof. split; vm_compute; reflexivity. Qed.

(** Three ways the claim C6 fails as worded: the token occurs in the
    directory part only, and no rename is made; the token has a separator in
    it, and the file lands in another directory under another basename; the
    file has no extension and the token has a dot, and the new name has an
    extension. *)
Lemma rename_target_as_worded_fails :
  (PyStr.contains "ACME" (PurePath.name (PurePath.parse "ACME/inv.xml"))
   = false
   /\ calls (snd (file_rename (Examples.quiet []) "ACME/inv.xml" "ACME"
                    (MemFS.boot Examples.token_dir))) = [])
  /\ (PyStr.contains "a/b" "d/inv.xml" = false
      /\ PurePath.to_str (new_path "d/inv.xml" "a/b") = "d/a/b_inv.xml"
      /\ PurePath.name (new_path "d/inv.xml" "a/b") = "b_inv.xml"
      /\ PurePath.to_str (PurePath.parent (new_path "d/inv.xml" "a/b"))
         = "d/a"
      /\ PurePath.to_str (PurePath.parent (PurePath.parse "d/inv.xml")) = "d")
  /\ (PyStr.contains "v1.2" "d/README" = false
      /\ PurePath.suffix (PurePath.parse "d/README") = ""
      /\ PurePath.suffix (new_path "d/README" "v1.2") = ".2_README").
Proof. repeat split; vm_compute; reflexivity. Qed.

(** An invoice and its customer. *)
Lemma rename_target_witness :
  calls (snd (file_rename (Examples.quiet []) "d/a.xml" "ACME"
                (MemFS.boot Examples.posix_dir)))
  = [SysRename "d/a.xml" "d/ACME_a.xml"]
  /\ PurePath.name (new_path "d/a.xml" "ACME") = "ACME_a.xml"
  /\ PurePath.parent (new_path "d/a.xml" "ACME")
     = PurePath.parent (PurePath.parse "d/a.xml")
  /\ PurePath.suffix (new_path "d/a.xml" "ACME") = ".xml".
Proof.
  destruct (@rename_target MemFS.platform (Examples.quiet []) "d/a.xml" "ACME"
              (MemFS.boot Examples.posix_dir) eq_refl eq_refl)
    as (C & N & _ & D & X).
  split; [exact C|]. split; [exact N|]. split; [exact D|].
  refine (proj1 (X _)). discriminate.
Defined.

(** A file that is not there, ahead of two that are. *)
Lemma scan_failure_skips_file_witness :
  scan_file Examples.batch "d/none.xml" (MemFS.boot Examples.posix_dir)
  = (inl OSError, logged (SysOpen "d/none.xml") (MemFS.boot Examples.posix_dir))
  /\ fst (file_load_and_search Examples.batch "d/none.xml"
            (MemFS.boot Examples.posix_dir)) = inr ""
  /\ for_each ("d/none.xml" :: files Examples.batch) (process Examples.batch)
       (MemFS.boot Examples.posix_dir)
     = for_each (files Examples.batch) (process Examples.batch)
         (snd (process Examples.batch "d/none.xml"
                 (MemFS.boot Examples.posix_dir))).
Proof.
  split; [reflexivity|].
  destruct (@scan_failure_skips_file MemFS.platform Examples.batch
              "d/none.xml" (files Examples.batch)
              (MemFS.boot Examples.posix_dir) _ OSError eq_refl)
    as (T & _ & _ & L).
  split; [exact T | exact L].
Defined.

(** The same for content that is not text. *)
Example undecodable_file_is_skipped :
  fst (scan_file (Examples.chatty []) "d/bin.xml" (MemFS.boot Examples.odd_dir))
  = inl UnicodeDecodeError
  /\ fst (file_load_and_search (Examples.chatty []) "d/bin.xml"
            (MemFS.boot Examples.odd_dir)) = inr "".
Proof. split; vm_compute; reflexivity. Qed.

(** The file at the destination is replaced: of two files, one is left, and
    the contents that was under the new name is gone. *)
Lemma rename_replaces_existing_file :
  fst (main (Examples.quiet ["d/a.xml"]) (MemFS.boot Examples.crowded_dir))
  = inl (SystemExit 0)
  /\ MemFS.entries Examples.crowded_dir
     = [("d/a.xml", Examples.invoice "ACME");
        ("d/ACME_a.xml", Examples.invoice "BOLT")]
  /\ MemFS.entries
       (fs (snd (main (Examples.quiet ["d/a.xml"])
                   (MemFS.boot Examples.crowded_dir))))
     = [("d/ACME_a.xml", Examples.invoice "ACME")].
Proof. repeat split; vm_compute; reflexivity. Qed.

(** An account line written without markup. *)
Lemma missing_bracket_is_skipped_witness :
  fst (file_load_and_search (Examples.quiet []) "d/bad.xml"
         (MemFS.boot Examples.odd_dir)) = inr ""
  /\ fst (process (Examples.quiet []) "d/bad.xml"
            (MemFS.boot Examples.odd_dir)) = inr tt
  /\ fst (scan_file (Examples.quiet []) "d/bad.xml"
            (MemFS.boot Examples.odd_dir)) = inl IndexError.
Proof.
  destruct (@missing_bracket_is_skipped MemFS.platform (Examples.quiet [])
              "d/bad.xml" ["<Invoice>" ++ LF] ("Customer Acct Number: ACME" ++ LF)
              [] (MemFS.boot Examples.odd_dir)
              eq_refl eq_refl eq_refl eq_refl)
    as (T & R & _ & X).
  split; [exact T|]. split; [exact R|]. exact (X eq_refl eq_refl).
Defined.

(** * The rest of the script *)

(** ** What the scanner reads *)

Section ScannerCalls.

Context {P : Platform}.
Import PyStr PyStrFacts.

Lemma when_print_calls (b : bool) (s : string) (w : World) :
  calls (snd (when b (print s) w)) = calls w
  /\ fs (snd (when b (print s) w)) = fs w.
Proof. destruct b; cbn; auto. Qed.

(** The loop reads each line at most once, and once more at the end of the
    file. *)
Lemma scan_calls (args : Namespace) (fn : string) (infile : stream) :
  forall (data : string) (w : World),
  exists k,
    calls (snd (scan args fn data infile w))
    = (calls w ++ repeat (SysReadline fn) k)%list
    /\ k <= S (length infile).
Proof.
  induction infile as [|e rest IH]; intros data w; rewrite scan_eq;
    (destruct (is_empty data);
     [exists 0; cbn; rewrite app_nil_r; split; [reflexivity | lia]|]);
    (destruct (contains END_SEEK_MARKER data && verbose args);
     [exists 0; cbn; rewrite app_nil_r; split; [reflexivity | lia]|]);
    (destruct (contains CUST_ACCT_SEARCH_STR data);
     [exists 0; rewrite extract_world; cbn; rewrite app_nil_r;
      split; [reflexivity | lia]|]).
  - (* the read at the end of the file *)
    exists 1. cbn. split; [reflexivity | lia].
  - destruct e as [s|].
    + destruct (IH s (logged (SysReadline fn) w)) as (k & C & L).
      exists (S k). rewrite C. cbn. rewrite <- app_assoc.
      split; [reflexivity | lia].
    + exists 1. cbn. split; [reflexivity | lia].
Qed.

(** The calls of the body of the [try]. *)
Lemma scan_file_calls (args : Namespace) (fn : string) (w : World) :
  exists k,
    calls (snd (scan_file args fn w))
    = (calls w ++ SysOpen fn :: repeat (SysReadline fn) k)%list
    /\ k <= match os_open (fs w) fn with
            | Some h => S (length h)
            | None => 0
            end.
Proof.
  rewrite scan_file_eq.
  destruct (os_open (fs w) fn) as [[|[s|] rest]|]; cbv zeta.
  - exists 1. cbn. rewrite <- app_assoc. split; [reflexivity | lia].
  - destruct (scan_calls args fn rest s
                (logged (SysReadline fn) (logged (SysOpen fn) w)))
      as (k & C & L).
    exists (S k). rewrite C. cbn. rewrite <- !app_assoc.
    split; [reflexivity | lia].
  - exists 1. cbn. rewrite <- app_assoc. split; [reflexivity | cbn; lia].
  - exists 0. cbn. split; [reflexivity | lia].
Qed.

(** What is printed around the [try] adds no call. *)
Lemma file_load_and_search_calls (args : Namespace) (fn : string)
    (w : World) :
  calls (snd (file_load_and_search args fn w))
  = calls (snd (scan_file args fn w)).
Proof.
  rewrite file_load_and_search_eq.
  destruct (scan_file args fn w) as [[e|t'] w1]; cbn [snd] in *.
  - destruct (when_print_calls (verbose args)
                ("bad filename " ++ fn ++ ", skipping") w1) as [C1 _].
    destruct (when_print_calls (verbose args) "Customer Name Found: "
                (snd (when (verbose args)
                        (print ("bad filename " ++ fn ++ ", skipping")) w1)))
      as [C2 _].
    now rewrite C2, C1.
  - apply when_print_calls.
Qed.

(** X1: whatever the file system holds, the scanner never raises and never
    changes the file system; its only calls are one [open] of the file it
    was given and then reads of that file, at most one per line and one more
    at the end of the file, and none when the file cannot be opened. *)
Theorem scanner_only_reads (args : Namespace) (fn : string) (w : World) :
  exists (t : string) (k : nat),
    fst (file_load_and_search args fn w) = inr t
    /\ fs (snd (file_load_and_search args fn w)) = fs w
    /\ calls (snd (file_load_and_search args fn w))
       = (calls w ++ SysOpen fn :: repeat (SysReadline fn) k)%list
    /\ k <= match os_open (fs w) fn with
            | Some h => S (length h)
            | None => 0
            end.
Proof.
  destruct (file_load_and_search_returns args fn w) as [t T].
  pose proof (file_load_and_search_untouched args fn w) as [F _].
  destruct (scan_file_calls args fn w) as (k & C & L).
  exists t, k.
  split; [exact T|]. split; [exact F|]. split; [|exact L].
  now rewrite file_load_and_search_calls.
Qed.

(** The extraction as a value. *)
Lemma extract_eq (data : string) (w : World) :
  extract data w
  = (match nth_error (split ">" data) 1 with
     | Some _ => inr (token_of data)
     | None => inl IndexError
     end, w).
Proof.
  unfold extract, token_of, bind, index.
  destruct (nth_error (split ">" data) 1) as [x|]; [|reflexivity].
  unfold ret at 1. cbn iota.
  destruct (split "<" x) eqn:E; [|reflexivity].
  exfalso. now apply (split_not_nil "<" x).
Qed.

(** The loop on a file that has only lines it passes over: it reads to the
    end. *)
Lemma scan_to_end (args : Namespace) (fn : string) :
  forall (lines : list string) (data : string) (w : World),
    forallb (passes args) (data :: lines) = true ->
    fst (scan args fn data (map Line lines) w) = inr ""
    /\ calls (snd (scan args fn data (map Line lines) w))
       = (calls w ++ repeat (SysReadline fn) (S (length lines)))%list.
Proof.
  induction lines as [|x lines IH]; intros data w H;
    cbn [forallb] in H; apply andb_prop in H as [H1 H2]; cbn [map].
  - rewrite scan_eq. unfold passes in H1.
    apply andb_prop in H1 as [H1 H3]. apply andb_prop in H1 as [H0 H1].
    apply negb_true_iff in H0, H1, H3. rewrite H0, H3, H1. now cbn.
  - rewrite (scan_pass _ _ _ _ _ _ H1).
    destruct (IH x (logged (SysReadline fn) w) H2) as [R C].
    split; [exact R|]. rewrite C. cbn. now rewrite <- app_assoc.
Qed.

End ScannerCalls.

(** ** Where the scan ends *)

Section ScanEnds.

Context {P : Platform}.
Import PyStr PyStrFacts.


(** X2: with tracing on, the scan ends at the first line that holds the stop
    marker, be the search marker on that line or not: the token is empty,
    the line is the last one read, and the driver leaves the file alone. *)
Theorem verbose_scan_stops_at_stop_marker (args : Namespace) (fn : string)
    (pre : list string) (l : string) (post : stream) (w : World) :
  verbose args = true ->
  os_open (fs w) fn = Some (map Line pre ++ Line l :: post)%list ->
  forallb (passes args) pre = true ->
  contains END_SEEK_MARKER l = true ->
  fst (file_load_and_search args fn w) = inr ""
  /\ calls (snd (file_load_and_search args fn w))
     = (calls w ++ SysOpen fn :: repeat (SysReadline fn) (S (length pre)))%list
  /\ fst (process args fn w) = inr tt
  /\ untouched w (snd (process args fn w)).
Proof.
  intros V O Hp Hl.
  destruct (stop_marker_heeded_when_verbose args fn pre l post w V O Hp Hl)
    as [T C].
  split; [exact T|]. split; [exact C|].
  now apply process_skips.
Qed.

(** X3: a file in which every line is passed over (no search marker, and no
    stop marker that is heeded) is read to its end, one read per line and
    the read that finds the end; the token is empty and the driver leaves
    the file alone. *)
Theorem file_without_marker_is_read_to_the_end (args : Namespace)
    (fn : string) (lines : list string) (w : World) :
  os_open (fs w) fn = Some (map Line lines) ->
  forallb (passes args) lines = true ->
  fst (file_load_and_search args fn w) = inr ""
  /\ calls (snd (file_load_and_search args fn w))
     = (calls w ++ SysOpen fn
          :: repeat (SysReadline fn) (S (length lines)))%list
  /\ fst (process args fn w) = inr tt
  /\ untouched w (snd (process args fn w)).
Proof.
  intros O H.
  assert (S : fst (scan_file args fn w) = inr ""
              /\ calls (snd (scan_file args fn w))
                 = (calls w ++ SysOpen fn
                      :: repeat (SysReadline fn) (S (length lines)))%list).
  { rewrite scan_file_eq, O. destruct lines as [|x lines]; cbn [map]; cbv zeta.
    - cbn. now rewrite <- app_assoc.
    - destruct (scan_to_end args fn lines x
                  (logged (SysReadline fn) (logged (SysOpen fn) w)) H)
        as [R C].
      split; [exact R|]. rewrite C. cbn. now rewrite <- !app_assoc. }
  destruct S as [R C].
  assert (T : fst (file_load_and_search args fn w) = inr ""
              /\ calls (snd (file_load_and_search args fn w))
                 = calls (snd (scan_file args fn w))).
  { rewrite file_load_and_search_eq.
    destruct (scan_file args fn w) as [[e|t] w1]; cbn [fst snd] in *;
      [discriminate|].
    injection R as ->. split; [reflexivity | apply when_print_calls]. }
  destruct T as [T C'].
  split; [exact T|]. split; [now rewrite C'|].
  now apply process_skips.
Qed.


(** The token of the loop does not depend on the flag as long as no stop
    marker is met. *)
Lemma scan_flag (a1 a2 : Namespace) (fn : string) (infile : stream) :
  forall (data : string) (w1 w2 : World),
    contains END_SEEK_MARKER data = false ->
    no_stop_marker infile = true ->
    fst (scan a1 fn data infile w1) = fst (scan a2 fn data infile w2).
Proof.
  induction infile as [|e rest IH]; intros data w1 w2 Hd Hi;
    rewrite !scan_eq, Hd; cbn [andb];
    (destruct (is_empty data); [reflexivity|]);
    (destruct (contains CUST_ACCT_SEARCH_STR data);
     [now rewrite !extract_eq|]).
  - reflexivity.
  - destruct e as [s|]; [|reflexivity].
    cbn [no_stop_marker forallb] in Hi. apply andb_prop in Hi as [Hs Hr].
    apply negb_true_iff in Hs. now apply IH.
Qed.

(** X5: for a file none of whose lines holds the stop marker, the flag
    [--verbose] changes nothing but the printing: the token is the same,
    and so are the outcome of the driver's turn on the file and the file
    system after it. *)
Theorem flag_does_not_change_token (a1 a2 : Namespace) (fn : string)
    (w : World) :
  (forall h, os_open (fs w) fn = Some h -> no_stop_marker h = true) ->
  fst (file_load_and_search a1 fn w) = fst (file_load_and_search a2 fn w)
  /\ fst (process a1 fn w) = fst (process a2 fn w)
  /\ fs (snd (process a1 fn w)) = fs (snd (process a2 fn w)).
Proof.
  intros H.
  assert (S : fst (scan_file a1 fn w) = fst (scan_file a2 fn w)).
  { rewrite !scan_file_eq.
    destruct (os_open (fs w) fn) as [[|[s|] rest]|] eqn:O; try reflexivity.
    specialize (H _ eq_refl). cbn [no_stop_marker forallb] in H.
    apply andb_prop in H as [Hs Hr]. apply negb_true_iff in Hs.
    cbv zeta. now apply scan_flag. }
  assert (T : fst (file_load_and_search a1 fn w)
              = fst (file_load_and_search a2 fn w)).
  { rewrite !file_load_and_search_eq.
    destruct (scan_file a1 fn w) as [[e1|t1] u1],
             (scan_file a2 fn w) as [[e2|t2] u2]; cbn [fst] in *;
      congruence. }
  split; [exact T|].
  unfold process. rewrite !process_with_eq.
  pose proof (file_load_and_search_untouched a1 fn w) as [F1 _].
  pose proof (file_load_and_search_untouched a2 fn w) as [F2 _].
  destruct (file_load_and_search a1 fn w) as [[e1|t1] u1],
           (file_load_and_search a2 fn w) as [[e2|t2] u2];
    cbn [fst snd] in *; try discriminate.
  - injection T as ->. split; [reflexivity | congruence].
  - injection T as ->. destruct (String.eqb t2 "").
    + destruct (when_print_calls (verbose a1)
                  ("No customer information read from file " ++ fn) u1)
        as [_ G1].
      destruct (when_print_calls (verbose a2)
                  ("No customer information read from file " ++ fn) u2)
        as [_ G2].
      split; [now destruct (verbose a1), (verbose a2) | congruence].
    + pose proof (file_rename_effect a1 fn t2 u1) as E1.
      pose proof (file_rename_effect a2 fn t2 u2) as E2.
      cbv zeta in E1, E2. rewrite F1 in E1. rewrite F2 in E2.
      destruct (contains t2 fn).
      * destruct E1 as (R1 & G1 & _), E2 as (R2 & G2 & _).
        split; congruence.
      * destruct E1 as [_ E1], E2 as [_ E2].
        destruct (os_rename (fs w) _ _).
        -- destruct E1 as [R1 G1], E2 as [R2 G2]. split; congruence.
        -- destruct E1 as (R1 & G1 & _), E2 as (R2 & G2 & _).
           split; congruence.
Qed.

End ScanEnds.

(** ** What a run does to the files it is given *)

Section RunCalls.

Context {P : Platform}.
Import PyStr PyStrFacts PurePathFacts.

Lemma join_last (sep : string) (l : list string) (x : string) :
  exists a, join sep (l ++ [x])%list = a ++ x.
Proof.
  induction l as [|y l [a IH]].
  - now exists "".
  - exists (y ++ sep ++ a). cbn [app].
    assert (E : join sep (y :: (l ++ [x])%list)
                = y ++ sep ++ join sep (l ++ [x])%list)
      by (destruct l; reflexivity).
    now rewrite E, IH, !append_assoc.
Qed.

(** X6: the path a file is renamed to holds the token, so that the renamer,
    called again on the renamed file with the same token, makes no call and
    returns: a file is not given the same prefix twice. *)
Theorem renamed_path_is_left_alone (args : Namespace) (fn T : string)
    (w : World) :
  has_char "/" T = false ->
  contains T (PurePath.to_str (new_path fn T)) = true
  /\ fst (file_rename args (PurePath.to_str (new_path fn T)) T w) = inr tt
  /\ fs (snd (file_rename args (PurePath.to_str (new_path fn T)) T w)) = fs w
  /\ calls (snd (file_rename args (PurePath.to_str (new_path fn T)) T w))
     = calls w.
Proof.
  intros Hs.
  assert (C : contains T (PurePath.to_str (new_path fn T)) = true).
  { rewrite (new_path_eq _ _ Hs). unfold PurePath.to_str.
    cbn [PurePath.root PurePath.parts].
    destruct (join_last "/" (removelast (PurePath.parts (PurePath.parse fn)))
                (new_name fn T)) as [a ->].
    rewrite new_name_eq.
    set (r := PurePath.root (PurePath.parse fn)).
    set (n := PurePath.name (PurePath.parse fn)).
    replace (r ++ a ++ T ++ "_" ++ n) with ((r ++ a) ++ T ++ "_" ++ n)
      by apply append_assoc.
    assert (E : is_empty ((r ++ a) ++ T ++ "_" ++ n) = false)
      by (destruct (r ++ a), T; reflexivity).
    rewrite E. apply contains_intro. }
  split; [exact C|].
  pose proof (file_rename_effect args (PurePath.to_str (new_path fn T)) T w)
    as E.
  cbv zeta in E. now rewrite C in E.
Qed.

Lemma renames_in_app (a b : list syscall) :
  renames_in (a ++ b) = (renames_in a ++ renames_in b)%list.
Proof.
  induction a as [|c a IH]; [reflexivity|].
  destruct c; cbn; try exact IH. now rewrite IH.
Qed.

Lemma renames_in_reads (fn : string) (k : nat) :
  renames_in (repeat (SysReadline fn) k) = [].
Proof. induction k as [|k IH]; [reflexivity | exact IH]. Qed.

(** The calls of one turn of the driver's loop: the file is opened and read,
    and renamed at most once. *)
Lemma process_calls (args : Namespace) (fn : string) (w : World) :
  exists (k : nat) (rn : list syscall),
    calls (snd (process args fn w))
    = (calls w ++ SysOpen fn :: repeat (SysReadline fn) k ++ rn)%list
    /\ (rn = []
        \/ exists t, t <> ""
                     /\ rn = [SysRename (PurePath.to_str (PurePath.parse fn))
                                        (PurePath.to_str (new_path fn t))]).
Proof.
  destruct (scan_file_calls args fn w) as (k & C & _).
  rewrite <- file_load_and_search_calls in C.
  unfold process. rewrite process_with_eq.
  destruct (file_load_and_search args fn w) as [[e|t] w1]; cbn [snd] in *.
  - exists k, []. rewrite app_nil_r. auto.
  - destruct (String.eqb_spec t "") as [->|Ht].
    + exists k, []. rewrite app_nil_r.
      destruct (when_print_calls (verbose args)
                  ("No customer information read from file " ++ fn) w1)
        as [C1 _].
      rewrite C1. auto.
    + pose proof (file_rename_effect args fn t w1) as E. cbv zeta in E.
      destruct (contains t fn).
      * destruct E as (_ & _ & E). exists k, []. rewrite app_nil_r, E. auto.
      * destruct E as [E _]. exists k, [SysRename
            (PurePath.to_str (PurePath.parse fn))
            (PurePath.to_str (new_path fn t))].
        rewrite E, C, <- app_assoc. cbn [app]. split; [reflexivity|].
        right. now exists t.
Qed.

(** A call that concerns the file [fn]: it is opened, read, or renamed under
    a token that is not empty. *)
Lemma process_calls_about (args : Namespace) (fn : string) (w : World) :
  exists cs,
    calls (snd (process args fn w)) = (calls w ++ cs)%list
    /\ length (renames_in cs) <= 1
    /\ (forall c, In c cs ->
         c = SysOpen fn \/ c = SysReadline fn
         \/ exists t, t <> ""
                      /\ c = SysRename (PurePath.to_str (PurePath.parse fn))
                                       (PurePath.to_str (new_path fn t))).
Proof.
  destruct (process_calls args fn w) as (k & rn & C & R).
  exists (SysOpen fn :: repeat (SysReadline fn) k ++ rn)%list.
  split; [exact C|]. split.
  - cbn [renames_in]. rewrite renames_in_app, renames_in_reads. cbn [app].
    destruct R as [->|(t & _ & ->)]; cbn; lia.
  - intros c [<-|H]; [now left|].
    apply in_app_or in H as [H|H].
    + apply repeat_spec in H. now right; left.
    + destruct R as [->|(t & Ht & ->)]; [contradiction|].
      destruct H as [<-|[]]. right; right. now exists t.
Qed.

Lemma loop_calls (args : Namespace) (l : list string) :
  forall w : World,
  exists cs,
    calls (snd (for_each l (process args) w)) = (calls w ++ cs)%list
    /\ length (renames_in cs) <= length l
    /\ (forall c, In c cs ->
         exists fn, In fn l
           /\ (c = SysOpen fn \/ c = SysReadline fn
               \/ exists t, t <> ""
                    /\ c = SysRename (PurePath.to_str (PurePath.parse fn))
                                     (PurePath.to_str (new_path fn t)))).
Proof.
  induction l as [|fn l IH]; intros w; cbn [for_each].
  - exists []. cbn. rewrite app_nil_r.
    split; [reflexivity|]. split; [lia | contradiction].
  - unfold bind.
    destruct (process_calls_about args fn w) as (c1 & C1 & L1 & A1).
    destruct (process args fn w) as [[e|[]] w1]; cbn [snd] in *.
    + exists c1. split; [exact C1|]. split; [cbn; lia|].
      intros c H. exists fn. split; [now left | now apply A1].
    + destruct (IH w1) as (c2 & C2 & L2 & A2).
      exists (c1 ++ c2)%list. split; [now rewrite C2, C1, app_assoc|].
      split.
      * rewrite renames_in_app, length_app. cbn [length]. lia.
      * intros c H. apply in_app_or in H as [H|H].
        -- exists fn. split; [now left | now apply A1].
        -- destruct (A2 c H) as (f & Hf & Hc). exists f.
           split; [now right | exact Hc].
Qed.

Lemma for_each_print_calls (g : string -> string) (l : list string) :
  forall w : World,
    calls (snd (for_each l (fun f => print (g f)) w)) = calls w.
Proof.
  induction l as [|x l IH]; intros w; cbn; [reflexivity|].
  now rewrite IH.
Qed.

Lemma announce_calls (args : Namespace) (w : World) :
  calls (snd (announce args w)) = calls w.
Proof.
  unfold announce, when. destruct (verbose args); cbn; [|reflexivity].
  now rewrite for_each_print_calls.
Qed.


End RunCalls.

(** ** How a run ends and what it prints *)

Section RunEnds.

Context {P : Platform}.
Import PyStr PyStrFacts.

(** The resolver in terms of the directory it lists and the pattern it
    matches. *)
Lemma resolve_windows_path_eq (args : Namespace) (path : string) (w : World) :
  resolve_windows_path args path w =
  let w1 :=
    logged (SysListdir (corrected_path path))
      (snd (when (verbose args)
              (print ("Seaching " ++ corrected_path path)) w)) in
  match os_listdir (fs w) (corrected_path path) with
  | Some listing =>
      collect_matches args (corrected_path path) (match_search_info path)
        listing [] w1
  | None => (inl OSError, w1)
  end.
Proof.
  unfold resolve_windows_path, corrected_path, match_search_info. cbv zeta.
  unfold listdir, trace, bind.
  destruct (verbose args); cbn [when print ret fst snd fs];
    destruct (os_listdir (fs w) _); reflexivity.
Qed.











End RunEnds.

(** ** The resolver on any argument *)

Section ResolverExtras.

Context {P : Platform}.
Import PyStr PyStrFacts PurePathFacts.

Lemma collect_matches_calls (args : Namespace) (cp pat : string)
    (listing : list string) :
  forall (acc : list string) (w : World),
    calls (snd (collect_matches args cp pat listing acc w)) = calls w
    /\ fs (snd (collect_matches args cp pat listing acc w)) = fs w.
Proof.
  induction listing as [|f rest IH]; intros acc w; cbn [collect_matches].
  - now cbn.
  - destruct (fnmatch f pat); [|apply IH].
    unfold bind.
    pose proof (untouched_when_print (verbose args)
                  ("Appending " ++ f ++ " to list to process") w) as [R _].
    destruct (when_print_calls (verbose args)
                ("Appending " ++ f ++ " to list to process") w) as [C F].
    destruct (when (verbose args) _ w) as [[e|[]] w1]; cbn [fst snd] in *;
      [discriminate|].
    destruct (IH (acc ++ [(cp ++ f)%string])%list w1) as [C' F'].
    split; congruence.
Qed.

(** The world after the resolver: one listing more in the log. *)
Lemma resolve_windows_path_world (args : Namespace) (path : string)
    (w : World) :
  calls (snd (resolve_windows_path args path w))
  = (calls w ++ [SysListdir (corrected_path path)])%list
  /\ fs (snd (resolve_windows_path args path w)) = fs w.
Proof.
  rewrite resolve_windows_path_eq. cbv zeta.
  destruct (when_print_calls (verbose args)
              ("Seaching " ++ corrected_path path) w) as [C F].
  destruct (os_listdir (fs w) (corrected_path path)) as [listing|].
  - match goal with
    | |- context [collect_matches args ?cp ?pat listing [] ?w0] =>
        destruct (collect_matches_calls args cp pat listing [] w0) as [C' F']
    end.
    rewrite C', F'. unfold logged. cbn [calls fs snd]. now rewrite C, F.
  - unfold logged. cbn [calls fs snd]. now rewrite C, F.
Qed.

(** X10: the resolver lists one directory, once, and returns one path for
    each child whose name matches the last component of the argument, in
    the order of the listing: the argument with every occurrence of its last
    component deleted (or a dot when nothing is left) and the name of the
    child right after it.  Whether the paths name files is not looked at. *)
Theorem resolver_emits_matches_in_order (args : Namespace) (path : string)
    (listing : list string) (w : World) :
  os_listdir (fs w) (corrected_path path) = Some listing ->
  fst (resolve_windows_path args path w)
  = inr (map (fun f => corrected_path path ++ f)
           (filter (fun f => fnmatch f (match_search_info path)) listing))
  /\ match_search_info path = PurePath.name (PurePath.parse path)
  /\ corrected_path path
     = (if String.eqb (remove_all (PurePath.name (PurePath.parse path)) path) ""
        then "."
        else remove_all (PurePath.name (PurePath.parse path)) path)
  /\ calls (snd (resolve_windows_path args path w))
     = (calls w ++ [SysListdir (corrected_path path)])%list
  /\ fs (snd (resolve_windows_path args path w)) = fs w.
Proof.
  intros L.
  assert (N : match_search_info path = PurePath.name (PurePath.parse path))
    by apply stem_suffix.
  split; [|split; [exact N|split]].
  - rewrite resolve_windows_path_eq, L. cbv zeta.
    now rewrite collect_matches_value.
  - unfold corrected_path. cbv zeta. now rewrite N.
  - apply resolve_windows_path_world.
Qed.

(** X11: a wildcard that no child of the directory matches gives a run over
    no file: the directory is listed, nothing is opened or renamed, and the
    run ends with [exit(0)]. *)
Theorem wildcard_without_match (argv : Namespace) (path : string)
    (listing : list string) (w : World) :
  files argv = [path] ->
  contains "*" path = true ->
  os_listdir (fs w) (corrected_path path) = Some listing ->
  (forall f, In f listing -> fnmatch f (match_search_info path) = false) ->
  fst (main argv w) = inl (SystemExit 0)
  /\ fs (snd (main argv w)) = fs w
  /\ calls (snd (main argv w))
     = (calls w ++ [SysListdir (corrected_path path)])%list.
Proof.
  intros E S L N.
  assert (F : filter (fun f => fnmatch f (match_search_info path)) listing
              = []).
  { clear L. induction listing as [|f l IH]; [reflexivity|]. cbn.
    rewrite (N f (or_introl eq_refl)). apply IH.
    intros g Hg. apply N. now right. }
  assert (R : fst (resolve_windows_path argv path w) = inr []).
  { rewrite resolve_windows_path_eq, L. cbv zeta.
    now rewrite collect_matches_value, F. }
  destruct (resolve_windows_path_world argv path w) as [C G].
  unfold main, main_with, read_cli, bind. rewrite E. cbn [length Nat.leb Nat.eqb nth].
  rewrite S. cbn [andb].
  destruct (resolve_windows_path argv path w) as [[e|l] w1];
    cbn [fst snd] in *; [discriminate|].
  injection R as ->. unfold ret at 1.
  unfold run_with, bind. cbn [files].
  pose proof (announce_ok (mkArgs [] (verbose argv)) w1) as [A [FA _]].
  pose proof (announce_calls (mkArgs [] (verbose argv)) w1) as CA.
  destruct (announce (mkArgs [] (verbose argv)) w1) as [[e|[]] w2];
    cbn [fst snd] in *; [discriminate|].
  cbn [for_each]. unfold ret at 1. cbn [verbose].
  destruct (verbose argv); cbn; repeat split; congruence.
Qed.

(** X12: when the directory of a wildcard cannot be listed, the [OSError]
    of [os.listdir] is caught nowhere: the run ends at once with the status
    1, having opened and renamed nothing. *)
Theorem unlistable_directory_ends_run (argv : Namespace) (path : string)
    (w : World) :
  files argv = [path] ->
  contains "*" path = true ->
  os_listdir (fs w) (corrected_path path) = None ->
  fst (main argv w) = inl OSError
  /\ exit_status (fst (main argv w)) = 1%Z
  /\ fs (snd (main argv w)) = fs w
  /\ calls (snd (main argv w))
     = (calls w ++ [SysListdir (corrected_path path)])%list.
Proof.
  intros E S L.
  assert (R : fst (resolve_windows_path argv path w) = inl OSError).
  { rewrite resolve_windows_path_eq, L. reflexivity. }
  destruct (resolve_windows_path_world argv path w) as [C G].
  unfold main, main_with, read_cli, bind. rewrite E.
  cbn [length Nat.leb Nat.eqb nth]. rewrite S. cbn [andb].
  destruct (resolve_windows_path argv path w) as [[e|l] w1];
    cbn [fst snd] in *; [|discriminate].
  injection R as ->. cbn. auto.
Qed.

End ResolverExtras.

(** ** Arguments that are not expanded, and one that is expanded badly *)

Section ArgumentExtras.

Context {P : Platform}.
Import PyStr PyStrFacts PurePathFacts.

(** X13: the directory is listed and the wildcard expanded only for a sole
    argument with a star in it.  Several arguments, or one without a star,
    are taken as they are, stars included: the run lists no directory and
    opens no file but those named. *)
Theorem arguments_taken_literally (argv : Namespace) (w : World) :
  files argv <> [] ->
  length (files argv) <> 1 \/ contains "*" (nth 0 (files argv) "") = false ->
  main argv w = run_with file_rename argv w
  /\ exists cs,
       calls (snd (main argv w)) = (calls w ++ cs)%list
       /\ (forall d, ~ In (SysListdir d) cs)
       /\ (forall f, In (SysOpen f) cs -> In f (files argv)).
Proof.
  intros H L.
  assert (R : read_cli argv w = (inr argv, w)).
  { unfold read_cli. destruct (files argv) as [|f l] eqn:E; [contradiction|].
    cbn [length Nat.leb].
    destruct L as [L|L].
    - destruct l as [|g l]; [now contradiction L|]. reflexivity.
    - cbn [nth] in *. rewrite L, andb_false_r. reflexivity. }
  assert (M : main argv w = run_with file_rename argv w).
  { unfold main, main_with, bind. now rewrite R. }
  split; [exact M|]. rewrite M. unfold run_with, bind.
  pose proof (announce_ok argv w) as [A _].
  pose proof (announce_calls argv w) as CA.
  destruct (announce argv w) as [[e|[]] w0]; cbn [fst snd] in *;
    [discriminate|].
  fold (process argv).
  destruct (loop_calls argv (files argv) w0) as (cs & C & _ & Q).
  exists cs. rewrite <- CA. split.
  - destruct (for_each (files argv) (process argv) w0) as [[e|[]] w1];
      cbn [snd] in *; [exact C|].
    destruct (verbose argv); exact C.
  - split.
    + intros d Hd. destruct (Q _ Hd) as (fn & _ & [X|[X|(t & _ & X)]]);
        discriminate.
    + intros f Hf. destruct (Q _ Hf) as (fn & Hfn & [X|[X|(t & _ & X)]]);
        try discriminate.
      now injection X as ->.
Qed.

Lemma remove_from_skip_app (old a s : string) :
  remove_from old (String.length a) (a ++ s) = remove_from old 0 s.
Proof.
  induction a as [|x a IH]; [reflexivity|].
  cbn [String.length append remove_from]. exact IH.
Qed.

(** The text of the last component deleted from [pat/pat]: a slash. *)
Lemma remove_all_twice (pat : string) :
  has_char "/" pat = false ->
  pat <> "" ->
  remove_all pat (pat ++ "/" ++ pat) = "/".
Proof.
  intros Hs Hp. destruct pat as [|c p]; [contradiction|].
  assert (Hc : Ascii.eqb c "/" = false)
    by (simpl in Hs; now destruct (Ascii.eqb c "/")).
  assert (S : remove_from (String c p) 0 (String c p) = "")
    by exact (remove_all_self (String c p)).
  assert (N : prefix (String c p) (String "/" (String c p)) = false).
  { simpl. destruct (ascii_dec c "/") as [->|]; [discriminate | reflexivity]. }
  unfold remove_all.
  set (pat := String c p) in *.
  assert (X : pat ++ "/" ++ pat = String c (p ++ "/" ++ pat)) by reflexivity.
  rewrite X. cbn [remove_from]. rewrite <- X, prefix_append.
  replace (String.length pat - 1) with (String.length p)
    by (subst pat; simpl; lia).
  rewrite remove_from_skip_app.
  change ("/" ++ pat) with (String "/" pat).
  cbn [remove_from]. now rewrite N, S.
Qed.

(** X14: every occurrence of the last component is deleted from the
    argument, not the last one only.  For an argument that is the same
    pattern twice with a slash in between, as [*/*] is, what is left is the
    slash: the resolver lists the root directory and returns the paths of
    its children that match, not those of the children of the directories
    here. *)
Theorem repeated_pattern_lists_the_root (args : Namespace) (pat : string)
    (listing : list string) (w : World) :
  has_char "/" pat = false ->
  PurePath.keep pat = true ->
  os_listdir (fs w) "/" = Some listing ->
  corrected_path (pat ++ "/" ++ pat) = "/"
  /\ fst (resolve_windows_path args (pat ++ "/" ++ pat) w)
     = inr (map (fun f => "/" ++ f) (filter (fun f => fnmatch f pat) listing)).
Proof.
  intros Hs Hk L.
  assert (Hp : pat <> "") by (intros ->; discriminate).
  assert (N : match_search_info (pat ++ "/" ++ pat) = pat).
  { unfold match_search_info. rewrite stem_suffix.
    change (pat ++ "/" ++ pat) with (pat ++ String "/" pat).
    now apply name_of_path. }
  assert (C : corrected_path (pat ++ "/" ++ pat) = "/").
  { unfold corrected_path. cbv zeta.
    now rewrite N, (remove_all_twice _ Hs Hp). }
  split; [exact C|].
  rewrite resolve_windows_path_eq, C, N, L. cbv zeta.
  now rewrite collect_matches_value.
Qed.

End ArgumentExtras.

(** ** The rest of the script on the examples *)

(** Tracing on, the reference numbers end on the second line. *)
Lemma verbose_scan_stops_at_stop_marker_witness :
  fst (file_load_and_search (Examples.chatty []) "inv.xml"
         (MemFS.boot Examples.late_dir)) = inr ""
  /\ calls (snd (file_load_and_search (Examples.chatty []) "inv.xml"
                   (MemFS.boot Examples.late_dir)))
     = [SysOpen "inv.xml"; SysReadline "inv.xml"; SysReadline "inv.xml"].
Proof.
  destruct (@verbose_scan_stops_at_stop_marker MemFS.platform
              (Examples.chatty []) "inv.xml" ["<Invoice>" ++ LF]
              ("</ReferenceNumbers>" ++ LF)
              [Line ("<Reference Customer Acct Number>" ++ "ACME"
                     ++ "</Reference>" ++ LF)]
              (MemFS.boot Examples.late_dir)
              eq_refl eq_refl eq_refl eq_refl)
    as (T & C & _).
  split; [exact T | exact C].
Defined.

(** The memo has three lines: four reads. *)
Lemma file_without_marker_is_read_to_the_end_witness :
  fst (file_load_and_search (Examples.quiet []) "d/memo.xml"
         (MemFS.boot MoreExamples.office_dir)) = inr ""
  /\ calls (snd (file_load_and_search (Examples.quiet []) "d/memo.xml"
                   (MemFS.boot MoreExamples.office_dir)))
     = [SysOpen "d/memo.xml"; SysReadline "d/memo.xml";
        SysReadline "d/memo.xml"; SysReadline "d/memo.xml";
        SysReadline "d/memo.xml"].
Proof.
  destruct (@file_without_marker_is_read_to_the_end MemFS.platform
              (Examples.quiet []) "d/memo.xml" MoreExamples.memo
              (MemFS.boot MoreExamples.office_dir) eq_refl eq_refl)
    as (T & C & _).
  split; [exact T | exact C].
Defined.


(** A file without the stop marker, scanned with and without the flag. *)
Lemma flag_does_not_change_token_witness :
  fst (file_load_and_search (Examples.chatty []) "d/odd.xml"
         (MemFS.boot Examples.odd_dir))
  = fst (file_load_and_search (Examples.quiet []) "d/odd.xml"
           (MemFS.boot Examples.odd_dir))
  /\ fs (snd (process (Examples.chatty []) "d/odd.xml"
                (MemFS.boot Examples.odd_dir)))
     = fs (snd (process (Examples.quiet []) "d/odd.xml"
                  (MemFS.boot Examples.odd_dir))).
Proof.
  destruct (@flag_does_not_change_token MemFS.platform (Examples.chatty [])
              (Examples.quiet []) "d/odd.xml" (MemFS.boot Examples.odd_dir))
    as (T & _ & F).
  - intros h H. vm_compute in H. injection H as <-. reflexivity.
  - split; [exact T | exact F].
Defined.

(** The invoice of ACME, once renamed, is left alone. *)
Lemma renamed_path_is_left_alone_witness :
  PurePath.to_str (new_path "d/a.xml" "ACME") = "d/ACME_a.xml"
  /\ PyStr.contains "ACME" (PurePath.to_str (new_path "d/a.xml" "ACME")) = true
  /\ calls (snd (file_rename (Examples.quiet [])
                   (PurePath.to_str (new_path "d/a.xml" "ACME")) "ACME"
                   (MemFS.boot Examples.posix_dir))) = [].
Proof.
  split; [reflexivity|].
  destruct (@renamed_path_is_left_alone MemFS.platform (Examples.quiet [])
              "d/a.xml" "ACME" (MemFS.boot Examples.posix_dir) eq_refl)
    as (C & _ & _ & K).
  split; [exact C | exact K].
Defined.


(** The invoices of [d], in the order of the directory. *)
Lemma resolver_emits_matches_in_order_witness :
  corrected_path "d/*.xml" = "d/"
  /\ match_search_info "d/*.xml" = "*.xml"
  /\ fst (resolve_windows_path (Examples.quiet []) "d/*.xml"
            (MemFS.boot MoreExamples.office_dir))
     = inr ["d/a.xml"; "d/memo.xml"; "d/ACME_old.xml"].
Proof.
  split; [reflexivity|]. split; [reflexivity|].
  exact (proj1 (@resolver_emits_matches_in_order MemFS.platform
                  (Examples.quiet []) "d/*.xml"
                  ["a.xml"; "memo.xml"; "ACME_old.xml"]
                  (MemFS.boot MoreExamples.office_dir) eq_refl)).
Defined.

(** No text file in [d]. *)
Lemma wildcard_without_match_witness :
  fst (main (Examples.chatty ["d/*.txt"]) (MemFS.boot Examples.posix_dir))
  = inl (SystemExit 0)
  /\ calls (snd (main (Examples.chatty ["d/*.txt"])
                   (MemFS.boot Examples.posix_dir)))
     = [SysListdir "d/"].
Proof.
  destruct (@wildcard_without_match MemFS.platform
              (Examples.chatty ["d/*.txt"]) "d/*.txt" ["a.xml"; "b.xml"]
              (MemFS.boot Examples.posix_dir) eq_refl eq_refl eq_refl)
    as (R & _ & C).
  - intros f [<-|[<-|[]]]; reflexivity.
  - split; [exact R | exact C].
Defined.

(** No directory [gone]. *)
Lemma unlistable_directory_ends_run_witness :
  os_listdir (Examples.posix_dir : @FS MemFS.platform) "gone/" = None
  /\ fst (main (Examples.quiet ["gone/*.xml"]) (MemFS.boot Examples.posix_dir))
     = inl OSError
  /\ exit_status (fst (main (Examples.quiet ["gone/*.xml"])
                         (MemFS.boot Examples.posix_dir))) = 1%Z.
Proof.
  split; [reflexivity|].
  destruct (@unlistable_directory_ends_run MemFS.platform
              (Examples.quiet ["gone/*.xml"]) "gone/*.xml"
              (MemFS.boot Examples.posix_dir) eq_refl eq_refl eq_refl)
    as (R & S & _).
  split; [exact R | exact S].
Defined.

(** A wildcard beside a file name: it is opened as it is, in vain. *)
Lemma arguments_taken_literally_witness :
  main (Examples.quiet ["d/*.xml"; "d/a.xml"]) (MemFS.boot Examples.posix_dir)
  = run_with file_rename (Examples.quiet ["d/*.xml"; "d/a.xml"])
      (MemFS.boot Examples.posix_dir)
  /\ map fst (MemFS.entries
                (fs (snd (main (Examples.quiet ["d/*.xml"; "d/a.xml"])
                            (MemFS.boot Examples.posix_dir)))))
     = ["d/ACME_a.xml"; "d/b.xml"].
Proof.
  split; [|reflexivity].
  refine (proj1 (@arguments_taken_literally MemFS.platform
                   (Examples.quiet ["d/*.xml"; "d/a.xml"])
                   (MemFS.boot Examples.posix_dir) _ _)).
  - discriminate.
  - left. discriminate.
Defined.

(** [*/*] from the working directory: the file in the root directory is
    renamed, the invoice below the working directory is not looked at. *)
Lemma repeated_pattern_lists_the_root_witness :
  corrected_path "*/*" = "/"
  /\ fst (resolve_windows_path (Examples.quiet []) "*/*"
            (MemFS.boot MoreExamples.rooted_dir)) = inr ["/boot.xml"]
  /\ map fst (MemFS.entries
                (fs (snd (main (Examples.quiet ["*/*"])
                            (MemFS.boot MoreExamples.rooted_dir)))))
     = ["/ACME_boot.xml"; "work/a.xml"].
Proof.
  destruct (@repeated_pattern_lists_the_root MemFS.platform
              (Examples.quiet []) "*" ["boot.xml"]
              (MemFS.boot MoreExamples.rooted_dir) eq_refl eq_refl eq_refl)
    as [C R].
  split; [exact C|]. split; [exact R | reflexivity].
Defined.
